(** * The documentation generator of stylelint.io: [scripts/generate-docs.mjs]

    The script parses every Markdown file of the stylelint package with
    remark, runs four tree passes over the syntax tree ([rewriteLink],
    [wrapProblemExample], [convertToAdmonitions], [makeRuleSymbolsAccessbile]),
    serialises the tree again and prepends a front matter block.

    This file embeds the passes and the front matter computation as Rocq
    functions and proves what the specification says about them.  JavaScript
    objects become a record with optional fields, arrays become lists, a thrown
    [TypeError] becomes the outcome [Throw]. *)

From Stdlib Require Import String Ascii List Bool Arith Lia.
Import ListNotations.

Set Implicit Arguments.

#[local] Notation "a +++ b" := (String.append a b)
  (right associativity, at level 60).

(** ** JavaScript values and primitives used by the script *)

Module JS.

(** A computation that may throw.  [Throw] stands for the [TypeError] raised
    when a property of [undefined] is read.  [OutOfFuel] and [Shared] belong to
    the model of the tree walk (see [Visit]): the first says that the step
    budget given to the walk was too small, the second that the walk reached
    nodes owned by two parents at once, which a tree value cannot express. *)
Inductive Outcome (A : Type) : Type :=
| Return (a : A)
| Throw
| OutOfFuel
| Shared.

Arguments Return {A} a.
Arguments Throw {A}.
Arguments OutOfFuel {A}.
Arguments Shared {A}.

Definition bind {A B : Type} (m : Outcome A) (k : A -> Outcome B) : Outcome B :=
  match m with
  | Return a => k a
  | Throw => Throw
  | OutOfFuel => OutOfFuel
  | Shared => Shared
  end.

(** The double quote and the line feed, which a string literal cannot hold. *)
Definition dquote : string := String (ascii_of_nat 34) EmptyString.
Definition LF : ascii := ascii_of_nat 10.
Definition nl : string := String LF EmptyString.

(** [a === b] on values that are a string or [undefined]. *)
Definition strict_eq (a b : option string) : bool :=
  match a, b with
  | Some x, Some y => String.eqb x y
  | None, None => true
  | _, _ => false
  end.

(** Truthiness of a value that is a string or [undefined]. *)
Definition truthy (v : option string) : bool :=
  match v with
  | Some s => negb (String.eqb s "")
  | None => false
  end.

(** [`${v}`] for a value that is a string or [undefined]. *)
Definition template (v : option string) : string :=
  match v with
  | Some s => s
  | None => "undefined"
  end.

(** [Array.prototype.includes] on an array of strings. *)
Definition includes (l : list string) (s : string) : bool :=
  existsb (String.eqb s) l.

(** [a.splice(start, 0, ...items)] and [a.splice(start, 1)]; a start past the
    end is clamped to the length, as [firstn] and [skipn] do. *)
Definition splice_insert {A : Type} (a : list A) (start : nat) (items : list A) : list A :=
  firstn start a ++ items ++ skipn start a.

Definition splice_delete {A : Type} (a : list A) (start : nat) : list A :=
  firstn start a ++ skipn (S start) a.

(** *** White space

    [trimStart] and [trimEnd] remove the characters of the ECMAScript
    productions WhiteSpace and LineTerminator.  Strings are kept as UTF-8
    bytes, so each such character is a sequence of one to three bytes. *)
Definition white_space : list (list nat) :=
  [ [9]; [10]; [11]; [12]; [13]; [32];
    [194; 160];                       (* U+00A0 *)
    [225; 154; 128];                  (* U+1680 *)
    [226; 128; 128]; [226; 128; 129]; [226; 128; 130]; [226; 128; 131];
    [226; 128; 132]; [226; 128; 133]; [226; 128; 134]; [226; 128; 135];
    [226; 128; 136]; [226; 128; 137]; [226; 128; 138];   (* U+2000 .. U+200A *)
    [226; 128; 168]; [226; 128; 169]; (* U+2028, U+2029 *)
    [226; 128; 175];                  (* U+202F *)
    [226; 129; 159];                  (* U+205F *)
    [227; 128; 128];                  (* U+3000 *)
    [239; 187; 191] ].                (* U+FEFF *)

Fixpoint strip_prefix (p s : list nat) : option (list nat) :=
  match p, s with
  | [], _ => Some s
  | x :: p', y :: s' => if Nat.eqb x y then strip_prefix p' s' else None
  | _ :: _, [] => None
  end.

(** The bytes left after one leading white space character, if there is one. *)
Fixpoint strip_one (ws : list (list nat)) (s : list nat) : option (list nat) :=
  match ws with
  | [] => None
  | w :: ws' =>
      match strip_prefix w s with
      | Some r => Some r
      | None => strip_one ws' s
      end
  end.

Fixpoint trim_loop (ws : list (list nat)) (n : nat) (s : list nat) : list nat :=
  match n with
  | O => s
  | S n' =>
      match strip_one ws s with
      | Some r => trim_loop ws n' r
      | None => s
      end
  end.

Definition bytes (s : string) : list nat := map nat_of_ascii (list_ascii_of_string s).
Definition unbytes (l : list nat) : string := string_of_list_ascii (map ascii_of_nat l).

Definition trimStart (s : string) : string :=
  let b := bytes s in
  unbytes (trim_loop white_space (length b) b).

Definition trimEnd (s : string) : string :=
  let b := rev (bytes s) in
  unbytes (rev (trim_loop (map (@rev nat) white_space) (length b) b)).

End JS.

Import JS.

#[local] Notation "x <- m ;; k" := (bind m (fun x => k))
  (at level 61, m at next level, right associativity).
Open Scope string_scope.
Open Scope list_scope.

(** ** The syntax tree

    A node of the tree that remark hands to the passes is a JavaScript object
    with a [type] and, depending on the type, a [children] array, a [value]
    string and a [url] string.  A field that the object does not have reads as
    [undefined], here [None].  [props] holds every other property of the
    object (the depth of a heading, the title of a link, the position in the
    source, ...); no pass reads or writes them. *)

Unset Elimination Schemes.
Inductive Node : Type := mkNode {
  type : string;
  children : option (list Node);
  value : option string;
  url : option string;
  props : list (string * string) }.
Set Elimination Schemes.

(** The object literals [{ type, value }] and [{ type, children }], and the
    node types of the Markdown tree used below. *)
Module mdast.
Definition literal (t v : string) : Node := mkNode t None (Some v) None [].
Definition parent (t : string) (cs : list Node) : Node := mkNode t (Some cs) None None [].

Definition text (v : string) : Node := literal "text" v.
Definition html (v : string) : Node := literal "html" v.
Definition inlineCode (v : string) : Node := literal "inlineCode" v.
Definition paragraph (cs : list Node) : Node := parent "paragraph" cs.
Definition emphasis (cs : list Node) : Node := parent "emphasis" cs.
Definition strong (cs : list Node) : Node := parent "strong" cs.
Definition blockquote (cs : list Node) : Node := parent "blockquote" cs.
Definition root (cs : list Node) : Node := parent "root" cs.
Definition heading (depth : string) (cs : list Node) : Node :=
  mkNode "heading" (Some cs) None None [("depth", depth)].
Definition link (u : string) (cs : list Node) : Node :=
  mkNode "link" (Some cs) None (Some u) [].
End mdast.

(** Assignments to one property of an object. *)
Definition set_children (n : Node) (cs : list Node) : Node :=
  mkNode (type n) (Some cs) (value n) (url n) (props n).
Definition set_value (n : Node) (v : option string) : Node :=
  mkNode (type n) (children n) v (url n) (props n).
Definition set_url (n : Node) (u : option string) : Node :=
  mkNode (type n) (children n) (value n) u (props n).

(** [a[i] = x] for an index inside the array. *)
Fixpoint set_nth (a : list Node) (i : nat) (x : Node) : list Node :=
  match a, i with
  | [], _ => []
  | _ :: a', O => x :: a'
  | y :: a', S i' => y :: set_nth a' i' x
  end.

(** Induction over a node and, through [Forall], over its children. *)
Definition all_children (P : Node -> Prop) (cs : option (list Node)) : Prop :=
  match cs with
  | Some l => Forall P l
  | None => True
  end.

Fixpoint Node_ind (P : Node -> Prop)
    (step : forall t cs v u p, all_children P cs -> P (mkNode t cs v u p))
    (n : Node) {struct n} : P n :=
  match n with
  | mkNode t cs v u p =>
      step t cs v u p
        (match cs as o return all_children P o with
         | Some l =>
             (fix go (l : list Node) : Forall P l :=
                match l with
                | [] => Forall_nil P
                | x :: l' => Forall_cons x (Node_ind P step x) (go l')
                end) l
         | None => I
         end)
  end.

(** Some node of the subtree below and including [n] passes [test]. *)
Fixpoint contains (test : Node -> bool) (n : Node) {struct n} : bool :=
  test n ||
  match n with
  | mkNode _ (Some cs) _ _ _ => existsb (contains test) cs
  | mkNode _ None _ _ _ => false
  end.

(** ** The tree walk

    The passes hand their visitors to [visit] of the package
    unist-util-visit, whose code is not part of the repository; the walk
    below follows the contract that section 4.1 of the specification gives
    for it.

    A visitor works on objects in place.  Here it gets the node and, unless
    the node is the root, its index and the parent's [children]; it returns
    the node after its own assignments, the parent's [children] after them,
    and where the node now is:
    - [Stays i]: still the element [i] of the parent's children, so what the
      walk does below the node shows in the tree;
    - [Gone shared]: no longer in the tree.  The walk still goes through the
      removed node (an exception there is an exception of the pass), but what
      it changes below it is lost, except in the nodes [shared], which the
      visitor also put somewhere else in the tree.  A tree value cannot hold
      one node in two places; when the walk would call the visitor on such a
      node the outcome is [Shared].

    The index handed to the visitor is the offset of the walk: the package
    computes it as [parent.children.indexOf(node)], which is the same number
    as long as no array holds one object twice. *)

Inductive Place : Type :=
| Stays (i : nat)
| Gone (shared : list Node).

Record Visited : Type := mkVisited {
  v_node : Node;
  v_children : list Node;
  v_place : Place }.

Definition Visitor : Type := Node -> option (nat * list Node) -> Outcome Visited.

(** The visitor returned without an assignment, or assigned to [node] only. *)
Definition in_place (node : Node) (ctx : option (nat * list Node)) : Visited :=
  match ctx with
  | Some (index, siblings) => mkVisited node siblings (Stays index)
  | None => mkVisited node [] (Stays 0)
  end.

Section Visit.

Variable test : Node -> bool.
Variable visitor : Visitor.

(** Modelled from the spec: the visitor is called for every node that passes
    the test, and only for those. *)
Definition call (node : Node) (ctx : option (nat * list Node)) : Outcome Visited :=
  if test node then visitor node ctx else Return (in_place node ctx).

(** Modelled from the spec: the depth-first walk in document order of
    unist-util-visit.  It calls the visitor with the node, its index and its
    parent, walks the subtree of a node before the next sibling, and reads
    the parent's [children] again after each call, so that what a visitor
    inserted behind the current index is walked too and nothing is walked
    twice.  [visit_one] walks the child [node] found at [offset] in
    [siblings] and returns the parent's children afterwards; [visit_all]
    walks the children of [p] from [offset] on and returns [p] afterwards. *)
Fixpoint visit_one (fuel : nat) (node : Node) (offset : nat) (siblings : list Node)
    {struct fuel} : Outcome (list Node) :=
  match fuel with
  | O => OutOfFuel
  | S f =>
      r <- call node (Some (offset, siblings)) ;;
      match v_place r with
      | Stays i =>
          node' <- visit_all f (v_node r) 0 ;;
          Return (set_nth (v_children r) i node')
      | Gone shared =>
          if existsb (contains test) shared then Shared
          else _ <- visit_all f (v_node r) 0 ;; Return (v_children r)
      end
  end
with visit_all (fuel : nat) (p : Node) (offset : nat) {struct fuel} : Outcome Node :=
  match fuel with
  | O => OutOfFuel
  | S f =>
      match children p with
      | None => Return p
      | Some cs =>
          match nth_error cs offset with
          | None => Return p
          | Some child =>
              cs' <- visit_one f child offset cs ;;
              visit_all f (set_children p cs') (S offset)
          end
      end
  end.

(** Modelled from the spec: [visit(tree, test, visitor)] of unist-util-visit;
    the root has no parent and no index. *)
Definition visit (fuel : nat) (tree : Node) : Outcome Node :=
  r <- call tree None ;;
  visit_all fuel (v_node r) 0.

End Visit.

(** ** [rewriteLink] *)

Module rewriteLink.
Section Options.

(** [options.rewriter], applied to [node.url]: a string, or [undefined] for
    an object without the property. *)
Variable rewriter : option string -> option string.

Definition visitor (node : Node) (ctx : option (nat * list Node)) : Outcome Visited :=
  Return (in_place (set_url node (rewriter (url node))) ctx).

(** The test [['link']]. *)
Definition test (node : Node) : bool := String.eqb (type node) "link".

Definition transform (fuel : nat) (tree : Node) : Outcome Node :=
  visit test visitor fuel tree.

End Options.
End rewriteLink.

(** ** [wrapProblemExample] *)

Module wrapProblemExample.

Definition triggers : list string :=
  [ "The following patterns are considered problems:";
    "The following pattern is considered a problem:" ].

(** [first?.value ?? ''] for the array element [x], absent when [None]. *)
Definition value_or_empty (x : option Node) : string :=
  match x with
  | Some n => match value n with Some v => v | None => "" end
  | None => ""
  end.

Definition isTrigger (node : Node) : bool :=
  if negb (String.eqb (type node) "paragraph") then false
  else
    match children node with
    | None => false
    | Some cs =>
        let first := nth_error cs 0 in
        let last := nth_error cs 2 in
        let text := trimEnd (value_or_empty first) +++ value_or_empty last in
        includes triggers text
    end.

(** [node.children[1]?.children[0]?.value === 'not'].  The first [?.] guards
    the element, not its [children]: an element without a [children] array
    makes the index [[0]] throw. *)
Definition isValid (node : Node) : Outcome bool :=
  match children node with
  | None => Throw
  | Some cs =>
      match nth_error cs 1 with
      | None => Return false
      | Some second =>
          match children second with
          | None => Throw
          | Some gs =>
              match nth_error gs 0 with
              | None => Return false
              | Some g => Return (strict_eq (value g) (Some "not"))
              end
          end
      end
  end.

Definition className (valid : bool) : string :=
  if valid then "valid-pattern" else "invalid-pattern".

Definition wrapperStart (valid : bool) : Node :=
  mdast.html ("<div class=" +++ dquote +++ className valid +++ dquote +++ ">").

Definition wrapperEnd : Node := mdast.html "</div>".

Definition boundary (child : Node) : bool :=
  isTrigger child || String.eqb (type child) "heading".

(** The loop [while (endIndex < childrenLength)]: [rest] is the part of the
    array from [endIndex] on. *)
Fixpoint findEnd (rest : list Node) (endIndex : nat) : nat :=
  match rest with
  | [] => endIndex
  | child :: rest' =>
      if boundary child then endIndex else findEnd rest' (S endIndex)
  end.

Definition visitor (node : Node) (ctx : option (nat * list Node)) : Outcome Visited :=
  valid <- isValid node ;;
  match ctx with
  | None => Throw
  | Some (index, siblings) =>
      let inserted := splice_insert siblings (index + 1) [wrapperStart valid] in
      let childrenLength := length inserted in
      let endIndex := findEnd (skipn (index + 1) inserted) (index + 1) in
      let closed :=
        if Nat.eqb endIndex childrenLength then inserted ++ [wrapperEnd]
        else splice_insert inserted endIndex [wrapperEnd] in
      Return (mkVisited node closed (Stays index))
  end.

Definition transform (fuel : nat) (tree : Node) : Outcome Node :=
  visit isTrigger visitor fuel tree.

End wrapProblemExample.

(** ** [convertToAdmonitions] *)

Module convertToAdmonitions.

(** [gfmToAdmonitions.get(key)]; the key [undefined] is in no [Map]. *)
Definition gfmToAdmonitions (key : option string) : option string :=
  match key with
  | Some k =>
      if String.eqb k "Note" then Some "note"
      else if String.eqb k "Warning" then Some "caution"
      else None
  | None => None
  end.

(** The [forEach] over [restChildren]: only the element 0 is touched, and
    only when its [value] is truthy. *)
Definition trimFirst (restChildren : list Node) : list Node :=
  match restChildren with
  | [] => []
  | child :: more =>
      (if truthy (value child)
       then set_value child (Some (trimStart (template (value child))))
       else child) :: more
  end.

Definition opener (admType : string) (gfmType : option string) : Node :=
  mdast.paragraph [mdast.text (":::" +++ admType +++ " " +++ template gfmType)].

Definition closer : Node := mdast.paragraph [mdast.text ":::"].

Definition visitor (blockquote : Node) (ctx : option (nat * list Node)) : Outcome Visited :=
  match children blockquote with
  | None => Throw
  | Some [] => Throw
  | Some (paragraph :: others) =>
      if negb (String.eqb (type paragraph) "paragraph") then Return (in_place blockquote ctx)
      else
        match children paragraph with
        | None => Throw
        | Some [] => Throw
        | Some (strong :: restChildren) =>
            if negb (String.eqb (type strong) "strong") then Return (in_place blockquote ctx)
            else
              match children strong with
              | None => Throw
              | Some inner =>
                  let gfmType :=
                    match inner with
                    | [] => None
                    | text :: _ => value text
                    end in
                  match gfmToAdmonitions gfmType with
                  | None => Return (in_place blockquote ctx)
                  | Some admType =>
                      let trimmed := trimFirst restChildren in
                      match ctx with
                      | None => Throw
                      | Some (index, siblings) =>
                          let inserted :=
                            splice_insert siblings (index + 1)
                              [ opener admType gfmType;
                                mdast.paragraph trimmed;
                                closer ] in
                          let deleted := splice_delete inserted index in
                          Return
                            (mkVisited
                               (set_children blockquote
                                  (set_children paragraph (strong :: trimmed) :: others))
                               deleted
                               (Gone trimmed))
                      end
                  end
              end
        end
  end.

(** The test [['blockquote']]. *)
Definition test (node : Node) : bool := String.eqb (type node) "blockquote".

Definition transform (fuel : nat) (tree : Node) : Outcome Node :=
  visit test visitor fuel tree.

End convertToAdmonitions.

(** ** [makeRuleSymbolsAccessbile] *)

Module makeRuleSymbolsAccessbile.

Definition symbols : list (string * string) :=
  [ ("✅", "Standard"); ("🔧", "Autofixable") ].

(** [symbols.get(key)]. *)
Definition symbols_get (key : option string) : option string :=
  match key with
  | Some k =>
      match find (fun entry => String.eqb (fst entry) k) symbols with
      | Some entry => Some (snd entry)
      | None => None
      end
  | None => None
  end.

Definition span (name symbol : option string) : Node :=
  mdast.html ("<span title=" +++ dquote +++ template name +++ dquote +++ ">"
        +++ template symbol +++ "</span>").

Definition visitor (node : Node) (ctx : option (nat * list Node)) : Outcome Visited :=
  let symbol := value node in
  let name := symbols_get symbol in
  match ctx with
  | None => Throw
  | Some (_index, _) => Return (mkVisited node [span name symbol] (Gone []))
  end.

(** The test [[{ type: 'text', value: '✅' }, { type: 'text', value: '🔧' }]]:
    one of the objects has each of its properties strictly equal in the node. *)
Definition test (node : Node) : bool :=
  existsb
    (fun entry =>
       String.eqb (type node) "text" && strict_eq (value node) (Some (fst entry)))
    symbols.

Definition transform (fuel : nat) (tree : Node) : Outcome Node :=
  visit test visitor fuel tree.

End makeRuleSymbolsAccessbile.

(** ** [processMarkdown]: the front matter

    The function is embedded from the point where [content] is bound: the
    string that remark returns for the file after the four passes.  Parsing
    and serialising are remark's. *)

Module processMarkdown.

(** A value that a property of the object literal [titleToSidebarLabel] can
    have: a string of its own, or what it inherits from [Object.prototype],
    a built-in function or (through [__proto__]) the prototype object. *)
Inductive JsValue : Type :=
| JsString (s : string)
| JsFunction (name : string)
| JsObject.

(** [`${v}`]: a built-in function prints as its native source text, a plain
    object as [[object Object]]. *)
Definition toString (v : JsValue) : string :=
  match v with
  | JsString s => s
  | JsFunction name => "function " +++ name +++ "() { [native code] }"
  | JsObject => "[object Object]"
  end.

Definition isTruthy (v : JsValue) : bool :=
  match v with
  | JsString s => negb (String.eqb s "")
  | JsFunction _ => true
  | JsObject => true
  end.

(** The properties every object literal inherits. *)
Definition Object_prototype : list (string * JsValue) :=
  [ ("constructor", JsFunction "Object");
    ("__defineGetter__", JsFunction "__defineGetter__");
    ("__defineSetter__", JsFunction "__defineSetter__");
    ("hasOwnProperty", JsFunction "hasOwnProperty");
    ("__lookupGetter__", JsFunction "__lookupGetter__");
    ("__lookupSetter__", JsFunction "__lookupSetter__");
    ("isPrototypeOf", JsFunction "isPrototypeOf");
    ("propertyIsEnumerable", JsFunction "propertyIsEnumerable");
    ("toString", JsFunction "toString");
    ("valueOf", JsFunction "valueOf");
    ("__proto__", JsObject);
    ("toLocaleString", JsFunction "toLocaleString") ].

Fixpoint assoc (key : string) (l : list (string * JsValue)) : option JsValue :=
  match l with
  | [] => None
  | (k, v) :: l' => if String.eqb k key then Some v else assoc key l'
  end.

(** [object[key]] for an object literal with the own properties [own]. *)
Definition get (own : list (string * JsValue)) (key : string) : option JsValue :=
  match assoc key own with
  | Some v => Some v
  | None => assoc key Object_prototype
  end.

Definition titleToSidebarLabel : list (string * JsValue) :=
  [ ("Stylelint", JsString "Home") ].

(** *** The regular expression [/\n?# ([^\n]+)\n/] *)

(** The longest prefix without a line feed, and what follows it. *)
Fixpoint upToLF (s : string) : string * string :=
  match s with
  | EmptyString => (EmptyString, EmptyString)
  | String c s' =>
      if Ascii.eqb c LF then (EmptyString, s)
      else let (line, rest) := upToLF s' in (String c line, rest)
  end.

(** [# ([^\n]+)\n] at the start of [s].  The group is greedy and takes the
    whole run of characters up to the line feed; a shorter run is never
    followed by a line feed, so backtracking into the group finds nothing. *)
Definition matchHash (s : string) : option string :=
  match s with
  | String "#" (String " " s') =>
      match upToLF s' with
      | (String c line, String _ _) => Some (String c line)
      | _ => None
      end
  | _ => None
  end.

(** The whole pattern at the start of [s]: [\n?] first takes the line feed if
    there is one, and gives it back if the rest does not match. *)
Definition matchHere (s : string) : option string :=
  match s with
  | String c s' =>
      if Ascii.eqb c LF then
        match matchHash s' with
        | Some t => Some t
        | None => matchHash s
        end
      else matchHash s
  | EmptyString => matchHash s
  end.

(** [content.match(re)]: the match at the leftmost position that has one;
    the result is the capture group 1, or [None] for [null]. *)
Fixpoint matchTitle (content : string) : option string :=
  match matchHere content with
  | Some t => Some t
  | None =>
      match content with
      | EmptyString => None
      | String _ content' => matchTitle content'
      end
  end.

Definition metaLine (item : string * JsValue) : string :=
  fst item +++ ": " +++ toString (snd item) +++ nl.

Definition processMarkdown (content : string) : Outcome string :=
  match matchTitle content with
  | None => Throw
  | Some title0 =>
      let sidebarLabel :=
        match get titleToSidebarLabel title0 with
        | Some v => if isTruthy v then v else JsString title0
        | None => JsString title0
        end in
      let home := String.eqb title0 "Stylelint" in
      let title := if home then sidebarLabel else JsString title0 in
      let slug := if home then Some "/" else None in
      let meta :=
        [ ("title", title); ("sidebar_label", sidebarLabel) ]
        ++ (if truthy slug then [("slug", JsString (template slug))] else []) in
      let frontMatter :=
        fold_left (fun acc item => acc +++ metaLine item) meta ("---" +++ nl)
        +++ "---" in
      Return (frontMatter +++ nl +++ nl +++ content)
  end.

End processMarkdown.

(** ** Definitions used to state the properties *)

(** The number of nodes of a tree; twice this number is a step budget large
    enough for a walk that does not add nodes. *)
Fixpoint size (n : Node) {struct n} : nat :=
  match n with
  | mkNode _ (Some cs) _ _ _ => S (list_sum (map size cs))
  | mkNode _ None _ _ _ => 1
  end.

(** What the specification says [rewriteLink] does: the [url] of every link
    node is replaced by [rewriter url], and nothing else changes. *)
Fixpoint rewritten (rewriter : option string -> option string) (n : Node) {struct n} : Node :=
  match n with
  | mkNode t cs v u p =>
      mkNode t
        (match cs with
         | Some l => Some (map (rewritten rewriter) l)
         | None => None
         end)
        v
        (if String.eqb t "link" then rewriter u else u)
        p
  end.

(** What the specification says decides the class of a wrapper: the
    inspection that [wrapProblemExample.isValid] makes, but made on the
    sibling that follows the trigger. *)
Definition followingIsValid (siblings : list Node) (index : nat) : bool :=
  match nth_error siblings (S index) with
  | Some following =>
      match wrapProblemExample.isValid following with
      | Return valid => valid
      | _ => false
      end
  | None => false
  end.

(** The trigger test as the specification words it: the first child and the
    last child of the paragraph (no last child when there is only one). *)
Definition isTrigger_first_last (node : Node) : bool :=
  String.eqb (type node) "paragraph" &&
  match children node with
  | None => false
  | Some cs =>
      let first := nth_error cs 0 in
      let last :=
        match cs with
        | _ :: _ :: _ => nth_error cs (length cs - 1)
        | _ => None
        end in
      includes wrapProblemExample.triggers
        (trimEnd (wrapProblemExample.value_or_empty first)
         +++ wrapProblemExample.value_or_empty last)
  end.

(** The serialised document has a heading of depth 1: remark writes such a
    heading as a line that starts with "# ".  [bol] says whether the scan
    stands at the beginning of a line. *)
Fixpoint hasH1From (bol : bool) (s : string) {struct s} : bool :=
  match s with
  | EmptyString => false
  | String c s' =>
      (bol && String.prefix "# " s) || hasH1From (Ascii.eqb c LF) s'
  end.

Definition hasH1 (content : string) : bool := hasH1From true content.

(** The front matter the specification describes for a title. *)
Definition frontMatterFor (title : string) : string :=
  if String.eqb title "Stylelint"
  then "---" +++ nl +++ "title: Home" +++ nl +++ "sidebar_label: Home" +++ nl
       +++ "slug: /" +++ nl +++ "---"
  else "---" +++ nl +++ "title: " +++ title +++ nl
       +++ "sidebar_label: " +++ title +++ nl +++ "---".

(** What the walk of [rewriteLink] has to establish for one child. *)
Definition walked (rewriter : option string -> option string) (c : Node) : Prop :=
  forall fuel offset siblings,
    2 * size c <= fuel ->
    visit_one rewriteLink.test (rewriteLink.visitor rewriter) fuel c offset siblings
    = Return (set_nth siblings offset (rewritten rewriter c)).

(** What a walk that finds nothing to do establishes for one child. *)
Definition passed_by (test : Node -> bool) (visitor : Visitor) (c : Node) : Prop :=
  forall fuel offset siblings,
    2 * size c <= fuel ->
    visit_one test visitor fuel c offset siblings = Return (set_nth siblings offset c).

(** ** Example documents *)

(** A rewriter in the style of the ones [main] passes: the link to the
    package's README becomes the link to the index page. *)
Definition readme_to_index (u : option string) : option string :=
  if strict_eq u (Some "README.md") then Some "index.md" else u.

Definition linked_document : Node :=
  mdast.root
    [ mdast.heading "1" [mdast.text "Stylelint"];
      mdast.paragraph
        [ mdast.text "See ";
          mdast.link "README.md" [mdast.emphasis [mdast.text "the guide"]];
          mdast.text " and ";
          mdast.link "docs/about.md" [mdast.text "more"] ] ].


Definition trigger_plain : Node :=
  mdast.paragraph [mdast.text "The following patterns are considered problems:"].

Definition trigger_not : Node :=
  mdast.paragraph
    [ mdast.text "The following patterns are ";
      mdast.emphasis [mdast.text "not"];
      mdast.text " considered problems:" ].

Definition code_example : Node :=
  mkNode "code" None (Some "a { color: pink; }") None [("lang", "css")].

Definition remark_with_not : Node :=
  mdast.paragraph
    [ mdast.text "This is ";
      mdast.emphasis [mdast.text "not"];
      mdast.text " a problem." ].

(** [The following patterns are *not* considered problems:*x* more] *)
Definition trigger_with_more : Node :=
  mdast.paragraph
    [ mdast.text "The following patterns are ";
      mdast.emphasis [mdast.text "not"];
      mdast.text " considered problems:";
      mdast.emphasis [mdast.text "x"];
      mdast.text " more" ].

(** [The following patterns are `not` considered problems:] *)
Definition trigger_code_span : Node :=
  mdast.paragraph
    [ mdast.text "The following patterns are ";
      mdast.inlineCode "not";
      mdast.text " considered problems:" ].

(** A file whose only heading has depth 2, and a file whose heading of
    depth 1 is a name that every object inherits. *)
Definition only_h2 : string := "## Foo" +++ nl +++ nl +++ "Text." +++ nl.
Definition h1_constructor : string := "# constructor" +++ nl +++ nl +++ "Text." +++ nl.
Definition h1_stylelint : string := "# Stylelint" +++ nl +++ nl +++ "Text." +++ nl.
Definition h1_foo : string := "# Foo" +++ nl +++ nl +++ "Text." +++ nl.

(** ** The chain of passes

    [processMarkdown] registers the four passes with [use]; remark runs them
    on the parsed tree in the order of registration. *)

Module pipeline.

Definition run (rewriter : option string -> option string) (fuel : nat) (tree : Node)
    : Outcome Node :=
  linked <- rewriteLink.transform rewriter fuel tree ;;
  wrapped <- wrapProblemExample.transform fuel linked ;;
  converted <- convertToAdmonitions.transform fuel wrapped ;;
  makeRuleSymbolsAccessbile.transform fuel converted.

End pipeline.

(** ** [main]: the rewriters and the names of the output files

    [main] gives [processMarkdown] one rewriter for each group of files and
    derives the name of the output file from the name of the input file.
    Both are chains of [String.prototype.replace]. *)

Module main.

(** [s.substring(n)]. *)
Fixpoint drop (n : nat) (s : string) {struct n} : string :=
  match n, s with
  | O, _ => s
  | S n', String _ s' => drop n' s'
  | S _, EmptyString => EmptyString
  end.

(** [s.replace(pattern, replacement)] for a string [pattern]: the first
    occurrence is replaced, a string without the pattern comes back as it
    is.  The replacement is taken literally; none of the script's
    replacements for a string pattern holds a [$]. *)
Fixpoint replace (pattern replacement s : string) {struct s} : string :=
  if String.prefix pattern s
  then replacement +++ drop (String.length pattern) s
  else
    match s with
    | EmptyString => EmptyString
    | String c s' => String c (replace pattern replacement s')
    end.

(** [url.replace(/^\/?docs\//, '/')]: the pattern is tied to the start. *)
Definition replaceDocsPrefix (url : string) : string :=
  if String.prefix "/docs/" url then "/" +++ drop (String.length "/docs/") url
  else if String.prefix "docs/" url then "/" +++ drop (String.length "docs/") url
  else url.

(** The classes [[a-z-]] and [[a-z-/]]. *)
Definition lowerOrDash (c : ascii) : bool :=
  let n := nat_of_ascii c in
  (Nat.leb 97 n && Nat.leb n 122) || Nat.eqb n 45.

Definition lowerDashOrSlash (c : ascii) : bool :=
  lowerOrDash c || Nat.eqb (nat_of_ascii c) 47.

(** The longest prefix made of characters of a class, and what follows. *)
Fixpoint span (class : ascii -> bool) (s : string) {struct s} : string * string :=
  match s with
  | EmptyString => (EmptyString, EmptyString)
  | String c s' =>
      if class c
      then let (run, rest) := span class s' in (String c run, rest)
      else (EmptyString, s)
  end.

(** What is left after the one character that [.] matches: any UTF-16 code
    unit but a line terminator.  In the UTF-8 bytes of the string such a
    code unit is a character of one, two or three bytes; a character of four
    bytes is two code units, of which [.] takes the first only, so that no
    literal can follow. *)
Definition dot (s : string) : option string :=
  match s with
  | EmptyString => None
  | String c1 s1 =>
      let n := nat_of_ascii c1 in
      if Nat.ltb n 128 then
        if Nat.eqb n 10 || Nat.eqb n 13 then None else Some s1
      else if Nat.ltb n 192 then None
      else if Nat.ltb n 224 then
        match s1 with
        | String _ s2 => Some s2
        | EmptyString => None
        end
      else if Nat.ltb n 240 then
        match s1 with
        | String c2 (String c3 s3) =>
            if Nat.eqb n 226 && Nat.eqb (nat_of_ascii c2) 128
               && (Nat.eqb (nat_of_ascii c3) 168 || Nat.eqb (nat_of_ascii c3) 169)
            then None
            else Some s3
        | _ => None
        end
      else None
  end.

(** [/\.\.\/([a-z-]+)\/README.md/] at the start of [s]: the group 1 and what
    follows the match.  The group takes the whole run of its class; the run
    cannot hold the [/] that has to follow, so a shorter run never matches. *)
Definition matchSibling (s : string) : option (string * string) :=
  if String.prefix "../" s then
    let (group, rest) := span lowerOrDash (drop (String.length "../") s) in
    match group with
    | EmptyString => None
    | String _ _ =>
        if String.prefix "/README" rest then
          match dot (drop (String.length "/README") rest) with
          | Some rest' =>
              if String.prefix "md" rest'
              then Some (group, drop (String.length "md") rest')
              else None
          | None => None
          end
        else None
    end
  else None.

(** [url.replace(/\.\.\/([a-z-]+)\/README.md/, '$1.md')]. *)
Fixpoint replaceSibling (url : string) {struct url} : string :=
  match matchSibling url with
  | Some (group, rest) => group +++ ".md" +++ rest
  | None =>
      match url with
      | EmptyString => EmptyString
      | String c url' => String c (replaceSibling url')
      end
  end.

(** [/\.\.\/\.\.\/\.\.\/docs\/user-guide\/([a-z-/]+)\.md/] at the start of
    [s]; the run of the class cannot hold the [.] that has to follow. *)
Definition matchUserGuide (s : string) : option (string * string) :=
  if String.prefix "../../../docs/user-guide/" s then
    let (group, rest) :=
      span lowerDashOrSlash (drop (String.length "../../../docs/user-guide/") s) in
    match group with
    | EmptyString => None
    | String _ _ =>
        if String.prefix ".md" rest
        then Some (group, drop (String.length ".md") rest)
        else None
    end
  else None.

(** [url.replace(/\.\.\/\.\.\/\.\.\/docs\/user-guide\/([a-z-/]+)\.md/, '../$1.md')]. *)
Fixpoint replaceUserGuide (url : string) {struct url} : string :=
  match matchUserGuide url with
  | Some (group, rest) => "../" +++ group +++ ".md" +++ rest
  | None =>
      match url with
      | EmptyString => EmptyString
      | String c url' => String c (replaceUserGuide url')
      end
  end.

(** The rewriter for the files at the top of the package. *)
Definition rewriterRoot (url : string) : string :=
  replace "README.md" "index.md" (replaceDocsPrefix url).

(** The rewriter for the files below [docs]. *)
Definition rewriterDocs (url : string) : string :=
  replace "CONTRIBUTING.md" "CONTRIBUTING"
    (replace "/README.md" ".md"
       (replace "../../lib/rules/" "/user-guide/rules/"
          (replace "../../VISION.md" "../VISION.md"
             (replace "../../CHANGELOG.md" "../CHANGELOG.md"
                (replace "../../lib/rules/index.js"
                   "https://github.com/stylelint/stylelint/blob/main/lib/rules/index.js"
                   url))))).

(** The rewriter for the files of the rules. *)
Definition rewriterRules (url : string) : string :=
  replaceUserGuide (replaceSibling url).

(** The names handed to [path.join] behind [outputDir], for the three groups
    of files. *)
Definition outputRoot (file : string) : string :=
  replace "README.md" "index.md" (replace "node_modules/stylelint" "" file).

Definition outputDocs (file : string) : string :=
  replace "node_modules/stylelint/docs" "" file.

Definition outputRules (file : string) : string :=
  replace "/README.md" ".md"
    (replace "node_modules/stylelint/lib/rules" "user-guide/rules" file).

End main.

(** ** More definitions used to state properties *)

(** The characters of a string. *)
Definition chars (s : string) : list ascii := list_ascii_of_string s.

(** Every character of [s] is in the class. *)
Fixpoint allOf (class : ascii -> bool) (s : string) {struct s} : bool :=
  match s with
  | EmptyString => true
  | String c s' => class c && allOf class s'
  end.

(** [pattern] occurs somewhere in [s]. *)
Fixpoint occurs (pattern s : string) {struct s} : bool :=
  String.prefix pattern s
  || match s with
     | EmptyString => false
     | String _ s' => occurs pattern s'
     end.

(** Two strings differ at a position that both have. *)
Fixpoint clash (p q : string) {struct p} : bool :=
  match p, q with
  | String a p', String b q' => if Ascii.eqb a b then clash p' q' else true
  | _, _ => false
  end.

(** [pattern] clashes with every non-empty suffix of [pre]: whatever follows
    [pre], no occurrence of [pattern] starts inside [pre]. *)
Fixpoint clashesInside (pattern pre : string) {struct pre} : bool :=
  match pre with
  | EmptyString => true
  | String _ pre' => clash pattern pre && clashesInside pattern pre'
  end.

(** The class of all characters but [x]. *)
Definition isNot (x c : ascii) : bool := negb (Ascii.eqb c x).

(** Every node of the subtree below and including [n] passes [P]. *)
Fixpoint everywhere (P : Node -> bool) (n : Node) {struct n} : bool :=
  P n &&
  match n with
  | mkNode _ (Some cs) _ _ _ => forallb (everywhere P) cs
  | mkNode _ None _ _ _ => true
  end.

(** A blockquote that is no admonition and lets the visitor read what it
    reads: it has a first child; when that is a paragraph, the paragraph has
    a first child; when that is a strong run, the run has a [children] array
    and its first text is neither "Note" nor "Warning". *)
Definition plainQuote (blockquote : Node) : bool :=
  match children blockquote with
  | Some (paragraph :: _) =>
      if String.eqb (type paragraph) "paragraph" then
        match children paragraph with
        | Some (strong :: _) =>
            if String.eqb (type strong) "strong" then
              match children strong with
              | Some inner =>
                  match convertToAdmonitions.gfmToAdmonitions
                          (match inner with
                           | [] => None
                           | text :: _ => value text
                           end) with
                  | None => true
                  | Some _ => false
                  end
              | None => false
              end
            else true
        | _ => false
        end
      else true
  | _ => false
  end.

(** A node that the pass has nothing to do with: no blockquote, or a plain
    one. *)
Definition noAdmonition (n : Node) : bool :=
  negb (convertToAdmonitions.test n) || plainQuote n.

(** [content] holds the line [# t]: the two characters, a title [t] that is
    not empty and has no line feed, and the line feed. *)
Definition titleLine (content t : string) : Prop :=
  exists pre post,
    content = pre +++ "# " +++ t +++ nl +++ post
    /\ t <> "" /\ allOf (isNot LF) t = true.

(** ** What two of the passes make of a whole tree *)






(** The label and the rest of an admonition: a blockquote whose first child
    is a paragraph whose first child is a strong node whose first child has
    the value "Note" or "Warning"; the rest are the children of the
    paragraph behind the strong node. *)
Definition admonitionParts (blockquote : Node) : option (string * list Node) :=
  if String.eqb (type blockquote) "blockquote" then
    match children blockquote with
    | Some (paragraph :: _) =>
        if String.eqb (type paragraph) "paragraph" then
          match children paragraph with
          | Some (strong :: restChildren) =>
              if String.eqb (type strong) "strong" then
                match children strong with
                | Some (text :: _) =>
                    match value text with
                    | Some label =>
                        if String.eqb label "Note" || String.eqb label "Warning"
                        then Some (label, restChildren)
                        else None
                    | None => None
                    end
                | _ => None
                end
              else None
          | _ => None
          end
        else None
    | _ => None
    end
  else None.

(** The kind of admonition for a label. *)
Definition admonitionKind (label : string) : string :=
  if String.eqb label "Note" then "note" else "caution".

(** The three paragraphs that stand for an admonition: the opener, the
    content, whose first child has lost the white space at the start of its
    value, and the closer. *)
Definition threeParagraphs (label : string) (restChildren : list Node) : list Node :=
  [ mdast.paragraph [mdast.text (":::" +++ admonitionKind label +++ " " +++ label)];
    mdast.paragraph
      (match restChildren with
       | [] => []
       | first :: later => set_value first (option_map trimStart (value first)) :: later
       end);
    mdast.paragraph [mdast.text ":::"] ].

(** The tree after the admonition pass: among the children of every node,
    each admonition has become its three paragraphs, and what else was in
    the admonition is gone; every other child is treated in the same way. *)
Fixpoint converted (n : Node) {struct n} : Node :=
  match n with
  | mkNode t cs v u p =>
      mkNode t
        (match cs with
         | Some l =>
             Some (flat_map
                     (fun c =>
                        match admonitionParts c with
                        | Some (label, restChildren) => threeParagraphs label restChildren
                        | None => [converted c]
                        end)
                     l)
         | None => None
         end)
        v u p
  end.

(** What stands in the place of one child after the admonition pass. *)
Definition convertedChild (c : Node) : list Node :=
  match admonitionParts c with
  | Some (label, restChildren) => threeParagraphs label restChildren
  | None => [converted c]
  end.

(** A node the admonition visitor can deal with: no blockquote, or a plain
    blockquote, or an admonition that has no blockquote among the children
    of its paragraph behind the strong node. *)
Definition readable (n : Node) : bool :=
  negb (convertToAdmonitions.test n)
  || plainQuote n
  || match admonitionParts n with
     | Some (_, restChildren) =>
         negb (existsb (contains convertToAdmonitions.test) restChildren)
     | None => false
     end.


(** What the walk of the admonition pass establishes for one child: what
    stands in its place afterwards. *)
Definition admonition_walked (c : Node) : Prop :=
  forall fuel done behind,
    3 * size c <= fuel ->
    visit_one convertToAdmonitions.test convertToAdmonitions.visitor
      fuel c (length done) (done ++ c :: behind)
    = Return (done ++ convertedChild c ++ behind).

(** * Properties *)

(** ** Lists and records *)

Lemma set_nth_app (done todo : list Node) (c x : Node) :
  set_nth (done ++ c :: todo) (length done) x = done ++ x :: todo.
Proof.
  induction done as [|d done IH]; simpl.
  - reflexivity.
  - now rewrite IH.
Qed.

Lemma nth_error_middle (done todo : list Node) (c : Node) :
  nth_error (done ++ c :: todo) (length done) = Some c.
Proof.
  induction done as [|d done IH]; simpl; auto.
Qed.

Lemma set_nth_same (l : list Node) (i : nat) (x : Node) :
  nth_error l i = Some x -> set_nth l i x = l.
Proof.
  revert i; induction l as [|y l IH]; intros [|i] H; simpl in *; try discriminate.
  - now inversion H.
  - now rewrite IH.
Qed.

Lemma forallb_negb_existsb (f : Node -> bool) (l : list Node) :
  forallb (fun c => negb (f c)) l = negb (existsb f l).
Proof.
  induction l as [|c l IH]; simpl; [reflexivity|].
  rewrite IH. now destruct (f c).
Qed.

Lemma set_children_twice (n : Node) (a b : list Node) :
  set_children (set_children n a) b = set_children n b.
Proof. reflexivity. Qed.

Lemma list_sum_cons (x : nat) (l : list nat) : list_sum (x :: l) = x + list_sum l.
Proof. reflexivity. Qed.

Lemma size_parent (n : Node) (cs : list Node) :
  children n = Some cs -> size n = S (list_sum (map size cs)).
Proof. destruct n as [t c v u q]; simpl; intros ->; reflexivity. Qed.

Lemma size_pos (n : Node) : 1 <= size n.
Proof. destruct n as [t [cs|] v u p]; simpl; lia. Qed.

(** ** One step of the walk *)

Lemma visit_one_step (test : Node -> bool) (visitor : Visitor)
    (f : nat) (node : Node) (offset : nat) (siblings : list Node) :
  visit_one test visitor (S f) node offset siblings
  = (r <- call test visitor node (Some (offset, siblings)) ;;
     match v_place r with
     | Stays i =>
         node' <- visit_all test visitor f (v_node r) 0 ;;
         Return (set_nth (v_children r) i node')
     | Gone shared =>
         if existsb (contains test) shared then Shared
         else _ <- visit_all test visitor f (v_node r) 0 ;; Return (v_children r)
     end).
Proof. reflexivity. Qed.

Lemma visit_all_step (test : Node -> bool) (visitor : Visitor)
    (f : nat) (p : Node) (offset : nat) :
  visit_all test visitor (S f) p offset
  = match children p with
    | None => Return p
    | Some cs =>
        match nth_error cs offset with
        | None => Return p
        | Some child =>
            cs' <- visit_one test visitor f child offset cs ;;
            visit_all test visitor f (set_children p cs') (S offset)
        end
    end.
Proof. reflexivity. Qed.

Lemma set_children_same (n : Node) (cs : list Node) :
  children n = Some cs -> set_children n cs = n.
Proof. destruct n as [t c v u q]; simpl; intros ->; reflexivity. Qed.

(** ** A walk over nodes that do not pass the test *)

Section NoMatch.

Variable test : Node -> bool.
Variable visitor : Visitor.

Lemma contains_children (t : string) (cs : list Node) (v u : option string)
    (q : list (string * string)) :
  contains test (mkNode t (Some cs) v u q) = false ->
  test (mkNode t (Some cs) v u q) = false /\ Forall (fun c => contains test c = false) cs.
Proof.
  cbn [contains]. intros H. apply orb_false_iff in H. destruct H as [Ht Hcs].
  split; [exact Ht|].
  apply Forall_forall. intros c Hin.
  destruct (contains test c) eqn:Hc; [|reflexivity].
  assert (existsb (contains test) cs = true) by (apply existsb_exists; eauto).
  congruence.
Qed.

Lemma walk_all_no_match (todo : list Node) :
  Forall (passed_by test visitor) todo ->
  forall p done fuel,
    1 + 2 * list_sum (map size todo) <= fuel ->
    children p = Some (done ++ todo) ->
    visit_all test visitor fuel p (length done) = Return p.
Proof.
  induction 1 as [|c todo Hc Htodo IH]; intros p done fuel Hfuel Hp.
  - destruct fuel as [|f]; [simpl in Hfuel; lia|].
    rewrite visit_all_step, Hp.
    replace (nth_error (done ++ []) (length done)) with (@None Node); [reflexivity|].
    symmetry. apply nth_error_None. rewrite app_nil_r. lia.
  - destruct fuel as [|f]; [simpl in Hfuel; lia|].
    simpl in Hfuel.
    rewrite visit_all_step, Hp, nth_error_middle.
    rewrite (Hc f (length done) (done ++ c :: todo)) by lia.
    cbn [bind]. rewrite set_nth_app, (set_children_same p Hp).
    specialize (IH p (done ++ [c]) f).
    rewrite length_app in IH. simpl in IH.
    replace (length done + 1) with (S (length done)) in IH by lia.
    apply IH.
    + pose proof (size_pos c). lia.
    + now rewrite <- app_assoc.
Qed.

Lemma walk_no_match (c : Node) :
  contains test c = false -> passed_by test visitor c.
Proof.
  induction c as [t cs v u q IH] using Node_ind.
  intros Hc fuel offset siblings Hfuel.
  destruct fuel as [|f]; [pose proof (size_pos (mkNode t cs v u q)); lia|].
  rewrite visit_one_step. unfold call.
  destruct cs as [l|].
  - apply contains_children in Hc. destruct Hc as [Ht Hl]. rewrite Ht.
    cbn [bind in_place v_place v_node v_children].
    rewrite (@walk_all_no_match l) with (done := []).
    + reflexivity.
    + cbn [all_children] in IH. rewrite Forall_forall in IH, Hl |- *.
      intros c Hin. apply IH; [exact Hin | apply Hl, Hin].
    + simpl in Hfuel. simpl. lia.
    + reflexivity.
  - cbn [contains] in Hc. apply orb_false_iff in Hc. destruct Hc as [Ht _]. rewrite Ht.
    cbn [bind in_place v_place v_node v_children].
    destruct f as [|f]; [simpl in Hfuel; lia|]. reflexivity.
Qed.

Lemma walk_list_no_match (todo : list Node) :
  forallb (fun c => negb (contains test c)) todo = true ->
  forall p done fuel,
    1 + 2 * list_sum (map size todo) <= fuel ->
    children p = Some (done ++ todo) ->
    visit_all test visitor fuel p (length done) = Return p.
Proof.
  intros Hall. apply walk_all_no_match.
  rewrite forallb_forall in Hall. apply Forall_forall.
  intros c Hin. apply walk_no_match.
  specialize (Hall c Hin). now apply negb_true_iff in Hall.
Qed.

(** The walk over a run of children that do not pass the test arrives
    behind the run with the parent as it was. *)
Lemma walk_prefix (todo : list Node) :
  forallb (fun c => negb (contains test c)) todo = true ->
  forall p done rest fuel,
    2 * list_sum (map size todo) <= fuel ->
    children p = Some (done ++ todo ++ rest) ->
    visit_all test visitor (length todo + fuel) p (length done)
    = visit_all test visitor fuel p (length done + length todo).
Proof.
  induction todo as [|c todo IH]; intros Hall p done rest fuel Hfuel Hp.
  - simpl. now rewrite Nat.add_0_r.
  - cbn [forallb] in Hall. apply andb_true_iff in Hall. destruct Hall as [Hc Hall].
    apply negb_true_iff in Hc.
    cbn [length Nat.add]. simpl in Hfuel.
    rewrite visit_all_step, Hp.
    change (done ++ (c :: todo) ++ rest) with (done ++ c :: (todo ++ rest)).
    rewrite nth_error_middle.
    rewrite (@walk_no_match c Hc) by lia.
    cbn [bind]. rewrite set_nth_app.
    change (done ++ c :: (todo ++ rest)) with (done ++ (c :: todo) ++ rest).
    rewrite (set_children_same p Hp).
    specialize (IH Hall p (done ++ [c]) rest fuel).
    rewrite length_app in IH. simpl in IH.
    replace (length done + 1) with (S (length done)) in IH by lia.
    rewrite IH.
    + f_equal. lia.
    + lia.
    + now rewrite <- app_assoc.
Qed.

Lemma length_le_size (l : list Node) : length l <= list_sum (map size l).
Proof.
  induction l as [|c l IH]; simpl; [lia|].
  pose proof (size_pos c). lia.
Qed.

End NoMatch.

(** ** The walk of [rewriteLink] *)

Section RewriteLink.

Variable rewriter : option string -> option string.

#[local] Abbreviation one := (visit_one rewriteLink.test (rewriteLink.visitor rewriter)).
#[local] Abbreviation all := (visit_all rewriteLink.test (rewriteLink.visitor rewriter)).

Lemma rewriteLink_all (todo : list Node) :
  Forall (walked rewriter) todo ->
  forall p done fuel,
    1 + 2 * list_sum (map size todo) <= fuel ->
    children p = Some (done ++ todo) ->
    all fuel p (length done)
    = Return (set_children p (done ++ map (rewritten rewriter) todo)).
Proof.
  induction 1 as [|c todo Hc Htodo IH]; intros p done fuel Hfuel Hp.
  - destruct fuel as [|f]; [simpl in Hfuel; lia|].
    rewrite visit_all_step, Hp.
    replace (nth_error (done ++ []) (length done)) with (@None Node).
    + simpl. now rewrite set_children_same.
    + symmetry. apply nth_error_None. rewrite app_nil_r. lia.
  - destruct fuel as [|f]; [simpl in Hfuel; lia|].
    simpl in Hfuel.
    rewrite visit_all_step, Hp, nth_error_middle.
    rewrite (Hc f (length done) (done ++ c :: todo)) by lia.
    simpl bind. rewrite set_nth_app.
    specialize (IH (set_children p (done ++ rewritten rewriter c :: todo))
                  (done ++ [rewritten rewriter c]) f).
    rewrite length_app in IH. simpl in IH.
    replace (length done + 1) with (S (length done)) in IH by lia.
    rewrite IH.
    + rewrite set_children_twice, <- app_assoc. reflexivity.
    + pose proof (size_pos c). lia.
    + simpl. now rewrite <- app_assoc.
Qed.

Lemma rewriteLink_call (n : Node) (ctx : option (nat * list Node)) :
  call rewriteLink.test (rewriteLink.visitor rewriter) n ctx
  = Return (in_place
              (set_url n (if String.eqb (type n) "link" then rewriter (url n) else url n))
              ctx).
Proof.
  unfold call, rewriteLink.test, rewriteLink.visitor.
  destruct n as [t cs v u q]; simpl.
  destruct (String.eqb t "link"); reflexivity.
Qed.

Lemma rewriteLink_below (n : Node) (fuel : nat) :
  all_children (walked rewriter) (children n) ->
  2 * size n <= S fuel ->
  all fuel
    (set_url n (if String.eqb (type n) "link" then rewriter (url n) else url n)) 0
  = Return (rewritten rewriter n).
Proof.
  destruct n as [t cs v u q]; intros IH Hfuel.
  destruct cs as [l|]; simpl in IH.
  - rewrite (@rewriteLink_all l IH _ [] fuel).
    + reflexivity.
    + simpl in Hfuel. simpl. lia.
    + reflexivity.
  - destruct fuel as [|f]; [simpl in Hfuel; lia|]. reflexivity.
Qed.

Lemma rewriteLink_one (c : Node) : walked rewriter c.
Proof.
  induction c as [t cs v u q IH] using Node_ind.
  intros fuel offset siblings Hfuel.
  destruct fuel as [|f]; [pose proof (size_pos (mkNode t cs v u q)); lia|].
  rewrite visit_one_step, rewriteLink_call. simpl bind. simpl v_place. cbv iota.
  simpl v_node. simpl v_children.
  rewrite rewriteLink_below; [reflexivity | exact IH | lia].
Qed.

Lemma rewriteLink_transform (fuel : nat) (tree : Node) :
  2 * size tree <= fuel ->
  rewriteLink.transform rewriter fuel tree = Return (rewritten rewriter tree).
Proof.
  intros Hfuel.
  unfold rewriteLink.transform, visit.
  rewrite rewriteLink_call.
  unfold bind, in_place, v_node.
  apply rewriteLink_below; [|lia].
  destruct (children tree) as [l|]; simpl; [|exact I].
  apply Forall_forall. intros c _. apply rewriteLink_one.
Qed.

(** [rewritten] node by node: the [url] of a link is the rewriter's result,
    the children are rewritten, every other property is kept. *)
Lemma rewritten_node (n : Node) :
  type (rewritten rewriter n) = type n
  /\ value (rewritten rewriter n) = value n
  /\ props (rewritten rewriter n) = props n
  /\ url (rewritten rewriter n)
     = (if String.eqb (type n) "link" then rewriter (url n) else url n)
  /\ children (rewritten rewriter n)
     = option_map (map (rewritten rewriter)) (children n).
Proof. destruct n as [t [cs|] v u q]; repeat split. Qed.

Lemma size_rewritten (n : Node) : size (rewritten rewriter n) = size n.
Proof.
  induction n as [t cs v u q IH] using Node_ind.
  destruct cs as [l|]; simpl; [|reflexivity].
  f_equal. rewrite map_map.
  induction IH as [|c l Hc Hl IHl]; simpl; [reflexivity|].
  now rewrite Hc, IHl.
Qed.

Lemma rewritten_idempotent (n : Node) :
  (forall u, rewriter (rewriter u) = rewriter u) ->
  rewritten rewriter (rewritten rewriter n) = rewritten rewriter n.
Proof.
  intros Hidem.
  induction n as [t cs v u q IH] using Node_ind.
  simpl. f_equal.
  - destruct cs as [l|]; [|reflexivity].
    f_equal. rewrite map_map.
    induction IH as [|c l Hc Hl IHl]; simpl; [reflexivity|].
    now rewrite Hc, IHl.
  - destruct (String.eqb t "link"); [apply Hidem | reflexivity].
Qed.

End RewriteLink.

(** C8.  With a step budget of twice the number of nodes, [rewriteLink]
    returns the tree in which the [url] of every link node is the rewriter's
    result on the old [url] and everything else (the shape of the tree, the
    types, values and other properties of all nodes, the [url] of nodes that
    are not links) is as before; and when the rewriter is idempotent, running
    the pass on its own result gives that result again. *)
Theorem C8_rewriteLink_rewrites_every_link
    (rewriter : option string -> option string) (fuel : nat) (tree : Node) :
  2 * size tree <= fuel ->
  rewriteLink.transform rewriter fuel tree = Return (rewritten rewriter tree)
  /\ ((forall u, rewriter (rewriter u) = rewriter u) ->
      (once <- rewriteLink.transform rewriter fuel tree ;;
       rewriteLink.transform rewriter fuel once)
      = rewriteLink.transform rewriter fuel tree).
Proof.
  intros Hfuel. split.
  - now apply rewriteLink_transform.
  - intros Hidem.
    rewrite (rewriteLink_transform rewriter tree Hfuel). simpl bind.
    rewrite rewriteLink_transform.
    + now rewrite rewritten_idempotent.
    + now rewrite size_rewritten.
Qed.

(** C8 on a document with two links, one of them to the README. *)
Lemma C8_witness :
  2 * size linked_document <= 24
  /\ rewriteLink.transform readme_to_index 24 linked_document
     = Return
         (mdast.root
            [ mdast.heading "1" [mdast.text "Stylelint"];
              mdast.paragraph
                [ mdast.text "See ";
                  mdast.link "index.md" [mdast.emphasis [mdast.text "the guide"]];
                  mdast.text " and ";
                  mdast.link "docs/about.md" [mdast.text "more"] ] ]).
Proof.
  assert (H : 2 * size linked_document <= 24) by (vm_compute; lia).
  split; [exact H|].
  exact (proj1 (@C8_rewriteLink_rewrites_every_link readme_to_index 24 linked_document H)).
Defined.

(** ** The visitor of [wrapProblemExample] *)

Lemma findEnd_split (rest : list Node) (k : nat) :
  exists wrapped tail,
    rest = wrapped ++ tail
    /\ forallb (fun c => negb (wrapProblemExample.boundary c)) wrapped = true
    /\ (tail = [] \/ exists b tail', tail = b :: tail' /\ wrapProblemExample.boundary b = true)
    /\ wrapProblemExample.findEnd rest k = k + length wrapped.
Proof.
  revert k; induction rest as [|c rest IH]; intros k.
  - exists [], []. simpl. repeat split; auto.
  - simpl. destruct (wrapProblemExample.boundary c) eqn:Hc.
    + exists [], (c :: rest). simpl. repeat split; eauto; lia.
    + destruct (IH (S k)) as (wrapped & tail & Hrest & Hall & Htail & Hend).
      exists (c :: wrapped), tail. simpl. rewrite Hc, Hall, Hend, Hrest.
      repeat split; auto; lia.
Qed.

Lemma wrapperStart_no_boundary (valid : bool) :
  wrapProblemExample.boundary (wrapProblemExample.wrapperStart valid) = false.
Proof. reflexivity. Qed.

(** Where the two markers go, for a node whose classification does not throw. *)
Lemma wrap_visitor_markers (node : Node) (index : nat) (siblings : list Node) (valid : bool) :
  index < length siblings ->
  wrapProblemExample.isValid node = Return valid ->
  exists wrapped tail,
    skipn (S index) siblings = wrapped ++ tail
    /\ forallb (fun c => negb (wrapProblemExample.boundary c)) wrapped = true
    /\ (tail = [] \/ exists b tail', tail = b :: tail' /\ wrapProblemExample.boundary b = true)
    /\ wrapProblemExample.visitor node (Some (index, siblings))
       = Return
           (mkVisited node
              (firstn (S index) siblings
               ++ [wrapProblemExample.wrapperStart valid]
               ++ wrapped
               ++ [wrapProblemExample.wrapperEnd]
               ++ tail)
              (Stays index)).
Proof.
  intros Hindex Hvalid.
  destruct (findEnd_split (skipn (S index) siblings) (S (S index)))
    as (wrapped & tail & Hrest & Hall & Htail & Hend).
  exists wrapped, tail. repeat split; auto.
  unfold wrapProblemExample.visitor. rewrite Hvalid. simpl bind.
  rewrite Nat.add_1_r. unfold splice_insert.
  set (before := firstn (S index) siblings).
  set (start := wrapProblemExample.wrapperStart valid).
  assert (Hbefore : length before = S index).
  { subst before. rewrite length_firstn. lia. }
  assert (Hskip : skipn (S index) (before ++ [start] ++ skipn (S index) siblings)
                  = start :: skipn (S index) siblings).
  { rewrite <- Hbefore at 1. rewrite skipn_app, skipn_all, Nat.sub_diag. reflexivity. }
  assert (Hstart : wrapProblemExample.boundary start = false)
    by apply wrapperStart_no_boundary.
  rewrite Hskip.
  change (wrapProblemExample.findEnd (start :: skipn (S index) siblings) (S index))
    with (if wrapProblemExample.boundary start then S index
          else wrapProblemExample.findEnd (skipn (S index) siblings) (S (S index))).
  rewrite Hstart, Hend, Hrest.
  assert (Hfront : length (before ++ [start] ++ wrapped) = S (S index) + length wrapped).
  { rewrite !length_app, Hbefore. simpl. lia. }
  assert (Hlen : length (before ++ [start] ++ wrapped ++ tail)
                 = S (S index) + length wrapped + length tail).
  { rewrite !length_app, Hbefore. simpl. lia. }
  rewrite Hlen.
  destruct tail as [|b tail'].
  - rewrite Nat.add_0_r, Nat.eqb_refl. simpl length.
    rewrite !app_nil_r, <- !app_assoc. reflexivity.
  - destruct (Nat.eqb_spec (S (S index) + length wrapped)
                (S (S index) + length wrapped + length (b :: tail'))) as [E|_].
    + simpl in E. lia.
    + replace (before ++ [start] ++ wrapped ++ b :: tail')
        with ((before ++ [start] ++ wrapped) ++ b :: tail')
        by (rewrite <- !app_assoc; reflexivity).
      rewrite <- Hfront.
      rewrite firstn_app, firstn_all, Nat.sub_diag, skipn_app, skipn_all, Nat.sub_diag.
      simpl. rewrite !app_nil_r, <- !app_assoc. reflexivity.
Qed.

Lemma isTrigger_children (node : Node) :
  wrapProblemExample.isTrigger node = true -> exists cs, children node = Some cs.
Proof.
  unfold wrapProblemExample.isTrigger.
  destruct (negb (String.eqb (type node) "paragraph")); [discriminate|].
  destruct (children node) as [cs|]; [eauto | discriminate].
Qed.

(** The whole pass on a document with one trigger among its top-level blocks:
    the opening marker follows the trigger, the closing marker stands in
    front of the first boundary behind it, or at the end, and everything else
    is as before. *)
Lemma wrapProblemExample_in_document
    (before after : list Node) (trigger : Node) (valid : bool) (fuel : nat) :
  wrapProblemExample.isTrigger trigger = true ->
  wrapProblemExample.isValid trigger = Return valid ->
  existsb (contains wrapProblemExample.isTrigger) (before ++ after) = false ->
  (forall cs, children trigger = Some cs ->
              existsb (contains wrapProblemExample.isTrigger) cs = false) ->
  3 * size (mdast.root (before ++ trigger :: after)) + 8 <= fuel ->
  exists wrapped tail,
    after = wrapped ++ tail
    /\ forallb (fun c => negb (wrapProblemExample.boundary c)) wrapped = true
    /\ (tail = [] \/ exists b tail', tail = b :: tail' /\ wrapProblemExample.boundary b = true)
    /\ wrapProblemExample.transform fuel (mdast.root (before ++ trigger :: after))
       = Return
           (mdast.root
              (before
               ++ [trigger; wrapProblemExample.wrapperStart valid]
               ++ wrapped
               ++ [wrapProblemExample.wrapperEnd]
               ++ tail)).
Proof.
  intros Htrigger Hvalid Hnone Hinside Hfuel.
  rewrite existsb_app in Hnone. apply orb_false_iff in Hnone.
  destruct Hnone as [Hbefore Hafter].
  destruct (isTrigger_children trigger Htrigger) as [cs Hcs].
  specialize (Hinside cs Hcs).
  set (siblings := before ++ trigger :: after) in *.
  assert (Hindex : length before < length siblings).
  { subst siblings. rewrite length_app. simpl. lia. }
  destruct (wrap_visitor_markers trigger siblings Hindex Hvalid)
    as (wrapped & tail & Hsplit & Hwrapped & Htail & Hvisit).
  assert (Hskip : skipn (S (length before)) siblings = after).
  { subst siblings. rewrite skipn_app, skipn_all2 by lia.
    replace (S (length before) - length before) with 1 by lia. reflexivity. }
  assert (Hfirst : firstn (S (length before)) siblings = before ++ [trigger]).
  { subst siblings. rewrite firstn_app, firstn_all2 by lia.
    replace (S (length before) - length before) with 1 by lia. reflexivity. }
  rewrite Hskip in Hsplit. rewrite Hfirst in Hvisit.
  exists wrapped, tail. repeat split; auto.
  assert (Hsize : size (mdast.root siblings)
                  = 2 + list_sum (map size before) + list_sum (map size cs)
                    + list_sum (map size after)).
  { subst siblings. cbn [size mdast.root mdast.parent].
    rewrite map_app, list_sum_app. cbn [map]; rewrite ?list_sum_cons.
    rewrite (size_parent trigger Hcs). lia. }
  pose proof (length_le_size before) as Hlen.
  assert (Hsum : list_sum (map size after)
                 = list_sum (map size wrapped) + list_sum (map size tail)).
  { rewrite Hsplit, map_app, list_sum_app. reflexivity. }
  assert (Hrest : existsb (contains wrapProblemExample.isTrigger) (wrapped ++ tail) = false)
    by (rewrite <- Hsplit; exact Hafter).
  unfold wrapProblemExample.transform, visit, call.
  change (wrapProblemExample.isTrigger (mdast.root siblings)) with false.
  cbn [bind in_place v_node].
  replace fuel with (length before + S (S (fuel - length before - 2))) by lia.
  set (f := fuel - length before - 2).
  assert (Hf : 3 * size (mdast.root siblings) + 6 <= length before + f)
    by (subst f; lia).
  (* the blocks in front of the trigger *)
  rewrite (@walk_prefix wrapProblemExample.isTrigger wrapProblemExample.visitor before)
    with (done := []) (rest := trigger :: after).
  2: { now rewrite forallb_negb_existsb, Hbefore. }
  2: { lia. }
  2: { reflexivity. }
  (* the trigger *)
  cbn [length Nat.add app].
  rewrite visit_all_step.
  cbn [children mdast.root mdast.parent]. unfold siblings at 1 2.
  rewrite (nth_error_middle before after trigger). fold siblings.
  rewrite visit_one_step. unfold call. rewrite Htrigger, Hvisit.
  cbn [bind v_place v_node v_children].
  rewrite (@walk_list_no_match wrapProblemExample.isTrigger wrapProblemExample.visitor cs)
    with (done := []).
  2: { now rewrite forallb_negb_existsb, Hinside. }
  2: { lia. }
  2: { exact Hcs. }
  cbn [bind].
  rewrite set_nth_same.
  2: { rewrite <- app_assoc. apply nth_error_middle. }
  (* the markers and the blocks behind the trigger *)
  set (start := wrapProblemExample.wrapperStart valid).
  set (close := wrapProblemExample.wrapperEnd).
  assert (Hk : S (length before) = length (before ++ [trigger]))
    by (rewrite length_app; simpl; lia).
  rewrite Hk.
  rewrite (@walk_list_no_match wrapProblemExample.isTrigger wrapProblemExample.visitor
             ([start] ++ wrapped ++ [close] ++ tail)).
  - cbn [set_children type value url props mdast.root mdast.parent].
    rewrite <- !app_assoc. reflexivity.
  - rewrite forallb_negb_existsb, !existsb_app. cbn [existsb].
    rewrite existsb_app in Hrest. apply orb_false_iff in Hrest.
    destruct Hrest as [-> ->]. reflexivity.
  - rewrite !map_app, !list_sum_app. subst start close.
    cbn [map wrapProblemExample.wrapperStart wrapProblemExample.wrapperEnd
         mdast.html mdast.literal size]; rewrite ?list_sum_cons.
    change (list_sum []) with 0. lia.
  - reflexivity.
Qed.

(** The pass on whole documents: a trigger directly in front of a heading
    gets the two markers next to each other, a second trigger closes the
    wrapper of the first, and without a later trigger or heading the closing
    marker is the last child. *)
Example wrapProblemExample_documents :
  wrapProblemExample.transform 12
    (mdast.root [trigger_plain; mdast.heading "2" [mdast.text "Options"]])
  = Return
      (mdast.root
         [ trigger_plain;
           wrapProblemExample.wrapperStart false;
           wrapProblemExample.wrapperEnd;
           mdast.heading "2" [mdast.text "Options"] ])
  /\ wrapProblemExample.transform 12
       (mdast.root [trigger_plain; code_example; trigger_not; code_example])
     = Return
         (mdast.root
            [ trigger_plain;
              wrapProblemExample.wrapperStart false;
              code_example;
              wrapProblemExample.wrapperEnd;
              trigger_not;
              wrapProblemExample.wrapperStart true;
              code_example;
              wrapProblemExample.wrapperEnd ]).
Proof. split; vm_compute; reflexivity. Qed.

Lemma strict_eq_Some (v : option string) (s : string) :
  strict_eq v (Some s) = true <-> v = Some s.
Proof.
  destruct v as [x|]; simpl.
  - rewrite String.eqb_eq. split; [intros ->; reflexivity | now inversion 1].
  - split; discriminate.
Qed.

Lemma isValid_true (node : Node) :
  wrapProblemExample.isValid node = Return true ->
  exists cs second gs g,
    children node = Some cs /\ nth_error cs 1 = Some second
    /\ children second = Some gs /\ nth_error gs 0 = Some g
    /\ value g = Some "not".
Proof.
  unfold wrapProblemExample.isValid.
  destruct (children node) as [cs|]; [|discriminate].
  destruct (nth_error cs 1) as [second|] eqn:Hsecond; [|discriminate].
  destruct (children second) as [gs|] eqn:Hgs; [|discriminate].
  destruct (nth_error gs 0) as [g|] eqn:Hg; [|discriminate].
  intros H.
  assert (Hv : strict_eq (value g) (Some "not") = true) by congruence.
  apply strict_eq_Some in Hv.
  exists cs, second, gs, g. repeat split; auto.
Qed.

(** C1 as the specification has it fails.  A trigger that holds the
    emphasised "not" and is followed by a code block gets the class
    [valid-pattern], although the block after it has no second child; a
    trigger without "not" followed by a paragraph whose second child is an
    emphasised "not" gets [invalid-pattern]. *)
Lemma C1_counterexample :
  wrapProblemExample.wrapperStart true <> wrapProblemExample.wrapperStart false
  /\ wrapProblemExample.isTrigger trigger_not = true
  /\ followingIsValid [trigger_not; code_example] 0 = false
  /\ wrapProblemExample.transform 12 (mdast.root [trigger_not; code_example])
     = Return
         (mdast.root
            [ trigger_not;
              wrapProblemExample.wrapperStart true;
              code_example;
              wrapProblemExample.wrapperEnd ])
  /\ wrapProblemExample.isTrigger trigger_plain = true
  /\ followingIsValid [trigger_plain; remark_with_not] 0 = true
  /\ wrapProblemExample.transform 12 (mdast.root [trigger_plain; remark_with_not])
     = Return
         (mdast.root
            [ trigger_plain;
              wrapProblemExample.wrapperStart false;
              remark_with_not;
              wrapProblemExample.wrapperEnd ]).
Proof.
  split; [vm_compute; discriminate|].
  repeat split; vm_compute; reflexivity.
Qed.

Lemma isValid_returns (node : Node) (cs : list Node) :
  children node = Some cs ->
  (forall second, nth_error cs 1 = Some second -> children second <> None) ->
  exists valid, wrapProblemExample.isValid node = Return valid.
Proof.
  intros Hcs Hsecond. unfold wrapProblemExample.isValid. rewrite Hcs.
  destruct (nth_error cs 1) as [second|]; [|exists false; reflexivity].
  specialize (Hsecond second eq_refl).
  destruct (children second) as [gs|]; [|contradiction].
  destruct (nth_error gs 0) as [g|]; [|exists false; reflexivity].
  now exists (strict_eq (value g) (Some "not")).
Qed.

(** C1, amended.  For a trigger paragraph handed to the visitor at [index],
    whose second child, when there is one, has a [children] array, the
    marker put at [index + 1] has the class [valid-pattern] when the second
    child of the trigger paragraph itself has a first child whose value is
    "not", and [invalid-pattern] otherwise. *)
Theorem C1_class_from_the_trigger_itself
    (node : Node) (index : nat) (siblings cs : list Node) :
  nth_error siblings index = Some node ->
  wrapProblemExample.isTrigger node = true ->
  children node = Some cs ->
  (forall second, nth_error cs 1 = Some second -> children second <> None) ->
  exists (valid : bool) r,
    wrapProblemExample.visitor node (Some (index, siblings)) = Return r
    /\ nth_error (v_children r) (S index)
       = Some (mdast.html
                 ("<div class=" +++ dquote
                  +++ (if valid then "valid-pattern" else "invalid-pattern")
                  +++ dquote +++ ">"))
    /\ (valid = true <->
        exists second gs g,
          nth_error cs 1 = Some second
          /\ children second = Some gs /\ nth_error gs 0 = Some g
          /\ value g = Some "not").
Proof.
  intros Hnode _ Hcs Hsecond.
  assert (Hindex : index < length siblings).
  { apply nth_error_Some. now rewrite Hnode. }
  destruct (isValid_returns node Hcs Hsecond) as [valid Hvalid].
  destruct (wrap_visitor_markers node siblings Hindex Hvalid)
    as (wrapped & tail & _ & _ & _ & Hvisit).
  exists valid. eexists. split; [exact Hvisit|]. split.
  - cbn [v_children].
    assert (Hlen : length (firstn (S index) siblings) = S index)
      by (rewrite length_firstn; lia).
    rewrite nth_error_app2 by lia.
    rewrite Hlen, Nat.sub_diag. destruct valid; reflexivity.
  - split.
    + intros ->. apply isValid_true in Hvalid.
      destruct Hvalid as (cs' & second & gs & g & Hcs' & H1 & H2 & H3 & H4).
      assert (cs' = cs) by congruence. subst cs'.
      exists second, gs, g. auto.
    + intros (second & gs & g & H1 & Hgs & Hg & Hnot).
      unfold wrapProblemExample.isValid in Hvalid.
      rewrite Hcs, H1, Hgs, Hg, Hnot in Hvalid.
      simpl in Hvalid. congruence.
Qed.

(** C1 on the trigger with the emphasised "not", followed by a code block. *)
Lemma C1_witness :
  nth_error [trigger_not; code_example] 0 = Some trigger_not
  /\ wrapProblemExample.isTrigger trigger_not = true
  /\ exists (valid : bool) r,
       wrapProblemExample.visitor trigger_not (Some (0, [trigger_not; code_example]))
       = Return r
       /\ nth_error (v_children r) 1
          = Some (mdast.html
                    ("<div class=" +++ dquote
                     +++ (if valid then "valid-pattern" else "invalid-pattern")
                     +++ dquote +++ ">"))
       /\ (valid = true <->
           exists second gs g,
             nth_error
               [ mdast.text "The following patterns are ";
                 mdast.emphasis [mdast.text "not"];
                 mdast.text " considered problems:" ] 1 = Some second
             /\ children second = Some gs /\ nth_error gs 0 = Some g
             /\ value g = Some "not").
Proof.
  split; [reflexivity|]. split; [reflexivity|].
  apply (@C1_class_from_the_trigger_itself
           trigger_not 0 [trigger_not; code_example]
           [ mdast.text "The following patterns are ";
             mdast.emphasis [mdast.text "not"];
             mdast.text " considered problems:" ]).
  - reflexivity.
  - reflexivity.
  - reflexivity.
  - intros second Hsecond. simpl in Hsecond.
    assert (Hs : second = mdast.emphasis [mdast.text "not"]) by congruence.
    rewrite Hs. discriminate.
Defined.

(** ** The trigger test *)

Lemma includes_triggers (s : string) :
  includes wrapProblemExample.triggers s = true
  <-> s = "The following patterns are considered problems:"
      \/ s = "The following pattern is considered a problem:".
Proof.
  unfold includes, wrapProblemExample.triggers. simpl existsb.
  rewrite !orb_true_iff, !String.eqb_eq.
  split; [intros [H|[H|H]]; auto; discriminate | intros [H|H]; auto].
Qed.

(** C7 as the specification has it fails: the paragraph
    [The following patterns are *not* considered problems:*x* more] is a
    trigger for the code, while its first and its last child give the text
    "The following patterns are more". *)
Lemma C7_counterexample :
  wrapProblemExample.isTrigger trigger_with_more = true
  /\ isTrigger_first_last trigger_with_more = false.
Proof. split; vm_compute; reflexivity. Qed.

(** C7, amended.  A node is a trigger exactly when it is a paragraph with a
    [children] array such that the value of the child 0, without its trailing
    white space, followed by the value of the child 2 is one of the two
    sentences; a child that is absent or has no value counts as the empty
    string.  So whatever stands as child 1, an emphasised "not" for one,
    does not take part in the match. *)
Theorem C7_trigger_is_first_and_third_child (node : Node) :
  (wrapProblemExample.isTrigger node = true
   <-> type node = "paragraph"
       /\ exists cs,
            children node = Some cs
            /\ (trimEnd (wrapProblemExample.value_or_empty (nth_error cs 0))
                +++ wrapProblemExample.value_or_empty (nth_error cs 2)
                = "The following patterns are considered problems:"
                \/ trimEnd (wrapProblemExample.value_or_empty (nth_error cs 0))
                   +++ wrapProblemExample.value_or_empty (nth_error cs 2)
                   = "The following pattern is considered a problem:"))
  /\ (forall middle,
        wrapProblemExample.isTrigger
          (mdast.paragraph
             [ mdast.text "The following patterns are ";
               middle;
               mdast.text " considered problems:" ]) = true).
Proof.
  split; [|reflexivity].
  unfold wrapProblemExample.isTrigger.
  destruct (String.eqb_spec (type node) "paragraph") as [Htype|Htype]; simpl negb; cbv iota.
  - destruct (children node) as [cs|].
    + rewrite includes_triggers. split.
      * intros H. split; [exact Htype|]. exists cs. split; [reflexivity | exact H].
      * intros (_ & cs' & Hcs & H). inversion Hcs; subst cs'. exact H.
    + split; [discriminate|]. intros (_ & cs' & Hcs & _). discriminate.
  - split; [discriminate|]. intros (H & _). contradiction.
Qed.

(** ** The visitor of [makeRuleSymbolsAccessbile] *)



(** ** The visitor of [convertToAdmonitions] *)

Lemma set_value_same (n : Node) : set_value n (value n) = n.
Proof. now destruct n. Qed.

(** The first of the children after the strong run loses the leading white
    space of its value; the others are kept. *)
Lemma trimFirst_cons (first : Node) (later : list Node) :
  convertToAdmonitions.trimFirst (first :: later)
  = set_value first (option_map trimStart (value first)) :: later.
Proof.
  unfold convertToAdmonitions.trimFirst. f_equal.
  destruct first as [t cs [v|] u q]; unfold truthy, set_value, template; cbn [value].
  - destruct (String.eqb_spec v "") as [->|_]; reflexivity.
  - reflexivity.
Qed.

Lemma splice_replace (siblings : list Node) (index : nat) (items : list Node) :
  index < length siblings ->
  splice_delete (splice_insert siblings (index + 1) items) index
  = firstn index siblings ++ items ++ skipn (S index) siblings.
Proof.
  intros Hindex. unfold splice_delete, splice_insert.
  rewrite Nat.add_1_r.
  assert (Hlen : length (firstn (S index) siblings) = S index)
    by (rewrite length_firstn; lia).
  f_equal.
  - rewrite firstn_app, Hlen.
    replace (index - S index) with 0 by lia.
    rewrite firstn_firstn, Nat.min_l by lia.
    simpl. apply app_nil_r.
  - rewrite skipn_app, Hlen, Nat.sub_diag, skipn_all2 by lia.
    reflexivity.
Qed.

(** A blockquote that is no admonition goes through the visitor untouched,
    as long as the arrays the visitor destructures are not empty. *)
Lemma admonition_pass_through
    (blockquote paragraph : Node) (others : list Node)
    (ctx : option (nat * list Node)) :
  children blockquote = Some (paragraph :: others) ->
  type paragraph <> "paragraph"
  \/ (exists strong restChildren,
        children paragraph = Some (strong :: restChildren)
        /\ (type strong <> "strong"
            \/ exists inner,
                 children strong = Some inner
                 /\ convertToAdmonitions.gfmToAdmonitions
                      (match inner with [] => None | text :: _ => value text end)
                    = None)) ->
  convertToAdmonitions.visitor blockquote ctx = Return (in_place blockquote ctx).
Proof.
  intros Hb Hshape. unfold convertToAdmonitions.visitor. rewrite Hb.
  destruct (String.eqb_spec (type paragraph) "paragraph") as [Hp|Hp]; simpl negb; cbv iota;
    [|reflexivity].
  destruct Hshape as [Hno|(strong & restChildren & Hc & Hshape)]; [contradiction|].
  rewrite Hc.
  destruct (String.eqb_spec (type strong) "strong") as [Hs|Hs]; simpl negb; cbv iota;
    [|reflexivity].
  destruct Hshape as [Hno|(inner & Hi & Hget)]; [contradiction|].
  now rewrite Hi, Hget.
Qed.

(** What the visitor returns for an admonition: the three paragraphs in the
    place of the blockquote, and the removed blockquote with the trimmed
    child, which the new content paragraph shares. *)
Lemma admonition_visitor_match
    (blockquote : Node) (index : nat) (siblings : list Node)
    (paragraph : Node) (others : list Node)
    (strong : Node) (restChildren : list Node)
    (text : Node) (more : list Node) (label : string) :
  index < length siblings ->
  children blockquote = Some (paragraph :: others) ->
  type paragraph = "paragraph" ->
  children paragraph = Some (strong :: restChildren) ->
  type strong = "strong" ->
  children strong = Some (text :: more) ->
  value text = Some label ->
  label = "Note" \/ label = "Warning" ->
  convertToAdmonitions.visitor blockquote (Some (index, siblings))
  = Return
      (mkVisited
         (set_children blockquote
            (set_children paragraph
               (strong :: convertToAdmonitions.trimFirst restChildren) :: others))
         (firstn index siblings
          ++ [ mdast.paragraph
                 [mdast.text
                    (":::" +++ (if String.eqb label "Note" then "note" else "caution")
                     +++ " " +++ label)];
               mdast.paragraph (convertToAdmonitions.trimFirst restChildren);
               mdast.paragraph [mdast.text ":::"] ]
          ++ skipn (S index) siblings)
         (Gone (convertToAdmonitions.trimFirst restChildren))).
Proof.
  intros Hindex Hb Hpt Hpc Hst Hsc Hv Hlabel.
  assert (Hget : convertToAdmonitions.gfmToAdmonitions (Some label)
                 = Some (if String.eqb label "Note" then "note" else "caution")).
  { destruct Hlabel as [->| ->]; reflexivity. }
  unfold convertToAdmonitions.visitor.
  rewrite Hb, Hpt, Hpc, Hst, Hsc, Hv, Hget.
  cbn [String.eqb Ascii.eqb Bool.eqb negb].
  rewrite splice_replace by exact Hindex.
  reflexivity.
Qed.

Lemma contains_set_value (test : Node -> bool) (n : Node) (v : option string) :
  (forall m w, test (set_value m w) = test m) ->
  contains test (set_value n v) = contains test n.
Proof. intros Htest. destruct n as [t [cs|] w u q]; cbn [contains]; now rewrite <- (Htest _ v). Qed.

Lemma size_set_value (n : Node) (v : option string) : size (set_value n v) = size n.
Proof. now destruct n as [t [cs|] w u q]. Qed.

Lemma trimFirst_no_blockquote (restChildren : list Node) :
  existsb (contains convertToAdmonitions.test) (convertToAdmonitions.trimFirst restChildren)
  = existsb (contains convertToAdmonitions.test) restChildren.
Proof.
  destruct restChildren as [|first later]; [reflexivity|].
  rewrite trimFirst_cons. cbn [existsb]. f_equal.
  now apply contains_set_value.
Qed.

Lemma trimFirst_size (restChildren : list Node) :
  list_sum (map size (convertToAdmonitions.trimFirst restChildren))
  = list_sum (map size restChildren).
Proof.
  destruct restChildren as [|first later]; [reflexivity|].
  rewrite trimFirst_cons. cbn [map]; rewrite ?list_sum_cons. now rewrite size_set_value.
Qed.

(** The whole pass on a document with one admonition among its top-level
    blocks and no other blockquote: the admonition becomes the three
    paragraphs, in its place, and everything else is as before. *)
Lemma convertToAdmonitions_in_document
    (before after : list Node) (blockquote paragraph : Node) (others : list Node)
    (strong : Node) (restChildren : list Node)
    (text : Node) (more : list Node) (label : string) (fuel : nat) :
  type blockquote = "blockquote" ->
  children blockquote = Some (paragraph :: others) ->
  type paragraph = "paragraph" ->
  children paragraph = Some (strong :: restChildren) ->
  type strong = "strong" ->
  children strong = Some (text :: more) ->
  value text = Some label ->
  label = "Note" \/ label = "Warning" ->
  existsb (contains convertToAdmonitions.test)
    (before ++ after ++ others ++ strong :: restChildren) = false ->
  3 * size (mdast.root (before ++ blockquote :: after)) + 8 <= fuel ->
  convertToAdmonitions.transform fuel (mdast.root (before ++ blockquote :: after))
  = Return
      (mdast.root
         (before
          ++ [ mdast.paragraph
                 [mdast.text
                    (":::" +++ (if String.eqb label "Note" then "note" else "caution")
                     +++ " " +++ label)];
               mdast.paragraph (convertToAdmonitions.trimFirst restChildren);
               mdast.paragraph [mdast.text ":::"] ]
          ++ after)).
Proof.
  intros Hbt Hb Hpt Hpc Hst Hsc Hv Hlabel Hnone Hfuel.
  rewrite !existsb_app in Hnone. cbn [existsb] in Hnone.
  repeat (apply orb_false_iff in Hnone; destruct Hnone as [? Hnone]).
  rename H into Hbefore, H0 into Hafter, H1 into Hothers, H2 into Hstrong, Hnone into Hrest.
  set (opener := mdast.paragraph
                   [mdast.text
                      (":::" +++ (if String.eqb label "Note" then "note" else "caution")
                       +++ " " +++ label)]).
  set (trimmed := convertToAdmonitions.trimFirst restChildren).
  set (content := mdast.paragraph trimmed).
  set (closer := mdast.paragraph [mdast.text ":::"]).
  assert (Htrimmed : existsb (contains convertToAdmonitions.test) trimmed = false).
  { subst trimmed. now rewrite trimFirst_no_blockquote. }
  assert (Hsize : size (mdast.root (before ++ blockquote :: after))
                  = 3 + list_sum (map size before) + size strong
                    + list_sum (map size restChildren)
                    + list_sum (map size others) + list_sum (map size after)).
  { cbn [size mdast.root mdast.parent]. rewrite map_app, list_sum_app. cbn [map]; rewrite ?list_sum_cons.
    rewrite (size_parent blockquote Hb). cbn [map]; rewrite ?list_sum_cons.
    rewrite (size_parent paragraph Hpc). cbn [map]; rewrite ?list_sum_cons. lia. }
  pose proof (length_le_size before) as Hlen.
  unfold convertToAdmonitions.transform, visit, call.
  change (convertToAdmonitions.test (mdast.root (before ++ blockquote :: after))) with false.
  cbn [bind in_place v_node].
  replace fuel with (length before + S (S (fuel - length before - 2))) by lia.
  set (f := fuel - length before - 2).
  assert (Hf : 3 * size (mdast.root (before ++ blockquote :: after)) + 6
               <= length before + f) by (subst f; lia).
  (* the blocks in front of the admonition *)
  rewrite (@walk_prefix convertToAdmonitions.test convertToAdmonitions.visitor before)
    with (done := []) (rest := blockquote :: after).
  2: { now rewrite forallb_negb_existsb, Hbefore. }
  2: { lia. }
  2: { reflexivity. }
  (* the admonition *)
  cbn [length Nat.add app].
  rewrite visit_all_step.
  cbn [children mdast.root mdast.parent]. rewrite (nth_error_middle before after blockquote).
  rewrite visit_one_step. unfold call, convertToAdmonitions.test at 1.
  rewrite Hbt. cbn [String.eqb Ascii.eqb Bool.eqb].
  rewrite (@admonition_visitor_match blockquote (length before) (before ++ blockquote :: after)
             paragraph others strong restChildren text more label);
    try assumption.
  2: { rewrite length_app. simpl. lia. }
  cbn [bind v_place v_node v_children].
  fold trimmed. rewrite Htrimmed.
  rewrite (@walk_list_no_match convertToAdmonitions.test convertToAdmonitions.visitor
             (set_children paragraph (strong :: trimmed) :: others))
    with (done := []).
  2: { cbn [forallb]. rewrite forallb_negb_existsb, Hothers.
       unfold set_children. cbn [contains existsb].
       unfold convertToAdmonitions.test at 1. cbn [type]. rewrite Hpt.
       cbn [String.eqb Ascii.eqb Bool.eqb].
       now rewrite Hstrong, Htrimmed. }
  2: { cbn [map]; rewrite ?list_sum_cons.
       rewrite (@size_parent (set_children paragraph (strong :: trimmed)) (strong :: trimmed))
         by reflexivity.
       cbn [map]; rewrite ?list_sum_cons. subst trimmed. rewrite trimFirst_size. lia. }
  2: { reflexivity. }
  cbn [bind].
  rewrite firstn_app, firstn_all, Nat.sub_diag, app_nil_r.
  replace (skipn (S (length before)) (before ++ blockquote :: after)) with after.
  2: { rewrite skipn_app, skipn_all2 by lia.
       replace (S (length before) - length before) with 1 by lia. reflexivity. }
  cbn [firstn app].
  fold opener content closer.
  (* the content paragraph, the closer and the blocks behind *)
  assert (Hk : S (length before) = length (before ++ [opener]))
    by (rewrite length_app; simpl; lia).
  rewrite Hk.
  rewrite (@walk_list_no_match convertToAdmonitions.test convertToAdmonitions.visitor
             (content :: closer :: after)).
  - reflexivity.
  - cbn [forallb]. rewrite forallb_negb_existsb, Hafter.
    subst content closer.
    cbn [mdast.paragraph mdast.parent contains].
    change (convertToAdmonitions.test (mkNode "paragraph" (Some trimmed) None None []))
      with false.
    now rewrite Htrimmed.
  - cbn [map]; rewrite ?list_sum_cons. subst content closer trimmed.
    cbn [mdast.paragraph mdast.parent mdast.text mdast.literal size map]; rewrite ?list_sum_cons.
    rewrite trimFirst_size. change (list_sum []) with 0. lia.
  - cbn [set_children children]. rewrite <- app_assoc. reflexivity.
Qed.

(** The pass on a whole document: the walk goes on behind the three new
    paragraphs and leaves a blockquote that is no admonition alone. *)
Example convertToAdmonitions_document :
  convertToAdmonitions.transform 12
    (mdast.root
       [ mdast.blockquote
           [ mdast.paragraph
               [ mdast.strong [mdast.text "Warning"];
                 mdast.text " Slow."; mdast.text " Very." ] ];
         mdast.blockquote [mdast.paragraph [mdast.text "A quote."]] ])
  = Return
      (mdast.root
         [ mdast.paragraph [mdast.text ":::caution Warning"];
           mdast.paragraph [mdast.text "Slow."; mdast.text " Very."];
           mdast.paragraph [mdast.text ":::"];
           mdast.blockquote [mdast.paragraph [mdast.text "A quote."]] ]).
Proof. vm_compute. reflexivity. Qed.

(** C5: the code misses the empty blockquote.  The visitor reads [type] of
    the first child without a guard, so on a blockquote without children,
    which is what Markdown's lone [>] gives, it throws, wherever the
    blockquote stands; the pass throws with it. *)
Theorem C5_empty_blockquote_throws
    (index : nat) (siblings : list Node) (fuel : nat) :
  convertToAdmonitions.test (mdast.blockquote []) = true
  /\ convertToAdmonitions.visitor (mdast.blockquote []) (Some (index, siblings)) = Throw
  /\ convertToAdmonitions.transform (S (S fuel))
       (mdast.root [mdast.blockquote []; mdast.paragraph [mdast.text "after"]])
     = Throw.
Proof. repeat split. Qed.

(** C6: the code misses triggers whose second child has no [children]
    array.  For [The following patterns are `not` considered problems:],
    which passes the trigger test, the classification reads index 0 of
    [undefined] and throws, so no marker is inserted, here in front of the
    heading that follows the trigger. *)
Theorem C6_trigger_with_code_span_throws (fuel : nat) :
  wrapProblemExample.isTrigger trigger_code_span = true
  /\ wrapProblemExample.transform (S (S fuel))
       (mdast.root [trigger_code_span; mdast.heading "2" [mdast.text "Options"]])
     = Throw.
Proof. split; reflexivity. Qed.

(** C10: the same miss seen from the visitor.  Called on the trigger with a
    code span, at whatever index and among whatever siblings, it throws
    before it has inserted a marker. *)
Theorem C10_visited_trigger_gets_no_marker (index : nat) (siblings : list Node) :
  wrapProblemExample.isTrigger trigger_code_span = true
  /\ wrapProblemExample.isValid trigger_code_span = Throw
  /\ wrapProblemExample.visitor trigger_code_span (Some (index, siblings)) = Throw.
Proof. repeat split. Qed.

(** ** The front matter *)

Lemma append_assoc (a b c : string) : (a +++ b) +++ c = a +++ (b +++ c).
Proof. induction a as [|x a IH]; simpl; [reflexivity | now rewrite IH]. Qed.

Lemma assoc_titleToSidebarLabel (title : string) :
  processMarkdown.assoc title processMarkdown.titleToSidebarLabel
  = if String.eqb title "Stylelint" then Some (processMarkdown.JsString "Home") else None.
Proof.
  unfold processMarkdown.assoc, processMarkdown.titleToSidebarLabel.
  now rewrite String.eqb_sym.
Qed.

(** For the title "Stylelint", and for a title that is not the name of an
    inherited property, the front matter is the one of the specification. *)
Lemma processMarkdown_frontMatter (content title : string) :
  processMarkdown.matchTitle content = Some title ->
  title = "Stylelint" \/ processMarkdown.assoc title processMarkdown.Object_prototype = None ->
  processMarkdown.processMarkdown content
  = Return (frontMatterFor title +++ nl +++ nl +++ content).
Proof.
  intros Hmatch Htitle.
  unfold processMarkdown.processMarkdown, processMarkdown.get, frontMatterFor.
  rewrite Hmatch, assoc_titleToSidebarLabel.
  destruct (String.eqb_spec title "Stylelint") as [->|Hother].
  - reflexivity.
  - destruct Htitle as [Hhome|Hown]; [contradiction|].
    rewrite Hown. cbn [truthy app fold_left].
    unfold processMarkdown.metaLine. cbn [fst snd processMarkdown.toString].
    rewrite !append_assoc. reflexivity.
Qed.

Lemma upToLF_line (t rest : string) :
  (forall c, In c (list_ascii_of_string t) -> c <> LF) ->
  processMarkdown.upToLF (t +++ nl +++ rest) = (t, nl +++ rest).
Proof.
  induction t as [|c t IH]; intros Hline.
  - reflexivity.
  - cbn [String.append processMarkdown.upToLF].
    destruct (Ascii.eqb_spec c LF) as [E|_].
    + exfalso. apply (Hline c); [now left | exact E].
    + rewrite IH; [reflexivity|]. intros d Hd. apply Hline. now right.
Qed.

(** A document that starts with a heading of depth 1 gets the text of that
    heading as its title. *)
Lemma matchTitle_leading_h1 (t rest : string) :
  t <> "" ->
  (forall c, In c (list_ascii_of_string t) -> c <> LF) ->
  processMarkdown.matchTitle ("# " +++ t +++ nl +++ rest) = Some t.
Proof.
  intros Hne Hline.
  cbn [String.append processMarkdown.matchTitle processMarkdown.matchHere].
  change (Ascii.eqb "#" LF) with false. cbv iota.
  unfold processMarkdown.matchHash.
  rewrite (upToLF_line t rest Hline).
  destruct t as [|c t]; [contradiction|]. reflexivity.
Qed.

(** C3: the pattern is not tied to the beginning of a line, so the code
    takes a title from a file without a heading of depth 1 instead of
    failing: for a file whose only heading is [## Foo] the match starts at the
    second [#] and the title is "Foo". *)
Theorem C3_title_taken_from_a_deeper_heading :
  hasH1 only_h2 = false
  /\ processMarkdown.matchTitle only_h2 = Some "Foo"
  /\ processMarkdown.processMarkdown only_h2
     = Return ("---" +++ nl +++ "title: Foo" +++ nl +++ "sidebar_label: Foo" +++ nl
               +++ "---" +++ nl +++ nl +++ only_h2).
Proof. repeat split. Qed.

(** C9: the label is looked up in an object literal, which also answers for
    the names it inherits.  A file with the heading [# constructor] gets the
    built-in function [Object] as its label, printed into the front matter,
    where the specification has the title. *)
Theorem C9_inherited_name_as_title :
  processMarkdown.matchTitle h1_constructor = Some "constructor"
  /\ processMarkdown.processMarkdown h1_constructor
     = Return ("---" +++ nl +++ "title: constructor" +++ nl
               +++ "sidebar_label: function Object() { [native code] }" +++ nl
               +++ "---" +++ nl +++ nl +++ h1_constructor)
  /\ processMarkdown.processMarkdown h1_constructor
     <> Return (frontMatterFor "constructor" +++ nl +++ nl +++ h1_constructor).
Proof.
  repeat split. vm_compute. discriminate.
Qed.

(** The two documents of the specification's example. *)
Lemma processMarkdown_examples :
  processMarkdown.processMarkdown h1_stylelint
  = Return ("---" +++ nl +++ "title: Home" +++ nl +++ "sidebar_label: Home" +++ nl
            +++ "slug: /" +++ nl +++ "---" +++ nl +++ nl +++ h1_stylelint)
  /\ processMarkdown.processMarkdown h1_foo
     = Return ("---" +++ nl +++ "title: Foo" +++ nl +++ "sidebar_label: Foo" +++ nl
               +++ "---" +++ nl +++ nl +++ h1_foo).
Proof.
  split.
  - now rewrite (@processMarkdown_frontMatter h1_stylelint "Stylelint" eq_refl (or_introl eq_refl)).
  - now rewrite (@processMarkdown_frontMatter h1_foo "Foo" eq_refl (or_intror eq_refl)).
Qed.

(** * Further properties *)

(** ** Strings: prefixes, occurrences and the first replacement *)

Lemma prefix_nil (s : string) : String.prefix "" s = true.
Proof. now destruct s. Qed.

Lemma prefix_cons (a b : ascii) (p s : string) :
  String.prefix (String a p) (String b s)
  = if Ascii.eqb a b then String.prefix p s else false.
Proof.
  simpl. destruct (ascii_dec a b) as [->|Hne].
  - now rewrite Ascii.eqb_refl.
  - destruct (Ascii.eqb_spec a b); [contradiction | reflexivity].
Qed.

Lemma prefix_app_same (a p s : string) :
  String.prefix (a +++ p) (a +++ s) = String.prefix p s.
Proof.
  induction a as [|c a IH]; [reflexivity|].
  cbn [String.append]. now rewrite prefix_cons, Ascii.eqb_refl.
Qed.

Lemma prefix_app_self (p s : string) : String.prefix p (p +++ s) = true.
Proof.
  induction p as [|c p IH]; [apply prefix_nil|].
  cbn [String.append]. now rewrite prefix_cons, Ascii.eqb_refl.
Qed.

Lemma drop_app (p s : string) : main.drop (String.length p) (p +++ s) = s.
Proof. induction p as [|c p IH]; [reflexivity | exact IH]. Qed.

Lemma clash_prefix (p q s : string) :
  clash p q = true -> String.prefix p (q +++ s) = false.
Proof.
  revert q; induction p as [|a p IH]; intros [|b q] H; try discriminate.
  cbn [String.append]. rewrite prefix_cons.
  cbn [clash] in H. destruct (Ascii.eqb a b); [now apply IH | reflexivity].
Qed.

Lemma replace_step (pattern replacement : string) (c : ascii) (s : string) :
  String.prefix pattern (String c s) = false ->
  main.replace pattern replacement (String c s)
  = String c (main.replace pattern replacement s).
Proof. intros H. cbn [main.replace]. now rewrite H. Qed.

Lemma replace_here (pattern replacement s : string) :
  main.replace pattern replacement (pattern +++ s) = replacement +++ s.
Proof.
  destruct pattern as [|a p].
  - destruct s; reflexivity.
  - cbn [String.append main.replace].
    change (String a (p +++ s)) with (String a p +++ s).
    now rewrite prefix_app_self, drop_app.
Qed.

(** No occurrence of the pattern starts inside [pre]: the replacement is the
    one in what follows. *)
Lemma replace_over (pattern replacement pre s : string) :
  clashesInside pattern pre = true ->
  main.replace pattern replacement (pre +++ s)
  = pre +++ main.replace pattern replacement s.
Proof.
  induction pre as [|c pre IH]; intros H; [reflexivity|].
  cbn [clashesInside] in H. apply andb_true_iff in H. destruct H as [Hc Hpre].
  cbn [String.append]. rewrite replace_step.
  - now rewrite IH.
  - change (String c (pre +++ s)) with (String c pre +++ s).
    now apply clash_prefix.
Qed.

(** A run of characters of a class that the first character of the pattern
    is not in holds no start of an occurrence either. *)
Lemma replace_skip (class : ascii -> bool) (x : ascii) (p replacement r s : string) :
  class x = false ->
  allOf class r = true ->
  main.replace (String x p) replacement (r +++ s)
  = r +++ main.replace (String x p) replacement s.
Proof.
  intros Hx. induction r as [|c r IH]; intros Hr; [reflexivity|].
  cbn [allOf] in Hr. apply andb_true_iff in Hr. destruct Hr as [Hc Hr].
  cbn [String.append]. rewrite replace_step.
  - now rewrite IH.
  - rewrite prefix_cons.
    destruct (Ascii.eqb_spec x c) as [->|_]; [congruence | reflexivity].
Qed.

(** The pattern [p1 x p2] is no prefix of [r t] when [x] is neither in the
    class of the characters of [r] nor among the first characters of [t],
    as far as the pattern can reach. *)
Lemma prefix_blocked (class : ascii -> bool) (x : ascii) (p1 p2 r t : string) :
  class x = false ->
  allOf class r = true ->
  existsb (Ascii.eqb x) (firstn (S (String.length p1)) (chars t)) = false ->
  String.prefix (p1 +++ String x p2) (r +++ t) = false.
Proof.
  intros Hx. revert r t. induction p1 as [|a p1 IH]; intros r t Hr Ht.
  - cbn [String.append]. destruct r as [|c r].
    + cbn [String.append]. destruct t as [|b t]; [reflexivity|].
      rewrite prefix_cons. cbn in Ht. apply orb_false_iff in Ht.
      destruct Ht as [Hb _]. now rewrite Hb.
    + cbn [String.append]. rewrite prefix_cons.
      cbn [allOf] in Hr. apply andb_true_iff in Hr. destruct Hr as [Hc _].
      destruct (Ascii.eqb_spec x c) as [->|_]; [congruence | reflexivity].
  - cbn [String.append]. destruct r as [|c r].
    + cbn [String.append]. destruct t as [|b t]; [reflexivity|].
      rewrite prefix_cons. destruct (Ascii.eqb a b); [|reflexivity].
      apply (IH "" t); [reflexivity|].
      cbn [String.length] in Ht.
      change (chars (String b t)) with (b :: chars t) in Ht.
      cbn [firstn existsb] in Ht. apply orb_false_iff in Ht. tauto.
    + cbn [String.append]. rewrite prefix_cons.
      destruct (Ascii.eqb a c); [|reflexivity].
      cbn [allOf] in Hr. apply andb_true_iff in Hr. destruct Hr as [_ Hr].
      apply (IH r t Hr).
      cbn [String.length] in Ht.
      remember (S (String.length p1)) as n.
      clear - Ht. revert Ht. generalize (chars t) as l. clear.
      intros l. revert n. induction l as [|d l IHl]; intros n H.
      * now destruct n.
      * destruct n as [|n]; [reflexivity|].
        cbn [firstn existsb] in *. apply orb_false_iff in H. destruct H as [Hd H].
        rewrite Hd. cbn [orb]. destruct n as [|n]; [reflexivity|].
        apply (IHl (S n)). exact H.
Qed.

Lemma replace_absent (pattern replacement s : string) :
  occurs pattern s = false -> main.replace pattern replacement s = s.
Proof.
  induction s as [|c s IH]; intros H.
  - cbn [occurs] in H. apply orb_false_iff in H. destruct H as [H _].
    cbn [main.replace]. now rewrite H.
  - cbn [occurs] in H. apply orb_false_iff in H. destruct H as [Hp Hs].
    rewrite replace_step by exact Hp. now rewrite IH.
Qed.

Lemma span_app (class : ascii -> bool) (r t : string) :
  allOf class r = true ->
  match t with
  | EmptyString => True
  | String c _ => class c = false
  end ->
  main.span class (r +++ t) = (r, t).
Proof.
  intros Hr Ht. induction r as [|c r IH].
  - cbn [String.append]. destruct t as [|b t]; [reflexivity|].
    cbn [main.span]. now rewrite Ht.
  - cbn [allOf] in Hr. apply andb_true_iff in Hr. destruct Hr as [Hc Hr].
    cbn [String.append main.span]. now rewrite Hc, IH.
Qed.

(** The pattern occurs neither in the fixed text [pre] nor in the run [r]
    nor in the fixed text [t], and cannot lie across their borders. *)
Lemma replace_miss (class : ascii -> bool) (x : ascii) (p replacement pre r t : string) :
  clashesInside (String x p) pre = true ->
  class x = false ->
  allOf class r = true ->
  main.replace (String x p) replacement t = t ->
  main.replace (String x p) replacement (pre +++ r +++ t) = pre +++ r +++ t.
Proof.
  intros Hpre Hx Hr Ht.
  rewrite replace_over by exact Hpre.
  rewrite (replace_skip class) by assumption.
  now rewrite Ht.
Qed.

(** ** [main]: the rewriter of the files below [docs] and the output names *)

Lemma rule_link_keeps_index_js (r : string) :
  allOf main.lowerOrDash r = true ->
  main.replace "../../lib/rules/index.js"
    "https://github.com/stylelint/stylelint/blob/main/lib/rules/index.js"
    ("../../lib/rules/" +++ r +++ "/README.md")
  = "../../lib/rules/" +++ r +++ "/README.md".
Proof.
  intros Hr.
  change ("../../lib/rules/" +++ r +++ "/README.md")
    with (String "." ("./../lib/rules/" +++ r +++ "/README.md")).
  rewrite replace_step.
  - f_equal. apply (replace_miss main.lowerOrDash); auto.
  - change (String "." ("./../lib/rules/" +++ r +++ "/README.md"))
      with ("../../lib/rules/" +++ r +++ "/README.md").
    change "../../lib/rules/index.js" with ("../../lib/rules/" +++ "index.js").
    rewrite prefix_app_same.
    apply (prefix_blocked main.lowerOrDash "." "index" "js"); auto.
Qed.

Lemma rule_readme_replaced (pre r : string) :
  clashesInside "/README.md" pre = true ->
  allOf main.lowerOrDash r = true ->
  main.replace "/README.md" ".md" (pre +++ "/" +++ r +++ "/README.md")
  = pre +++ "/" +++ r +++ ".md".
Proof.
  intros Hpre Hr.
  rewrite replace_over by exact Hpre. f_equal.
  change ("/" +++ r +++ "/README.md") with (String "/" (r +++ "/README.md")).
  rewrite replace_step.
  - f_equal. rewrite (replace_skip main.lowerOrDash) by auto. reflexivity.
  - rewrite prefix_cons. cbn [Ascii.eqb Bool.eqb].
    apply (prefix_blocked main.lowerOrDash "R" "" "EADME.md"); auto.
Qed.

Lemma rewriterDocs_rule (rule : string) :
  allOf main.lowerOrDash rule = true ->
  main.rewriterDocs ("../../lib/rules/" +++ rule +++ "/README.md")
  = "/user-guide/rules/" +++ rule +++ ".md".
Proof.
  intros Hr. unfold main.rewriterDocs.
  rewrite rule_link_keeps_index_js by exact Hr.
  rewrite (replace_miss main.lowerOrDash "." "./../CHANGELOG.md") by auto.
  rewrite (replace_miss main.lowerOrDash "." "./../VISION.md") by auto.
  rewrite (replace_here "../../lib/rules/" "/user-guide/rules/").
  change ("/user-guide/rules/" +++ rule +++ "/README.md")
    with ("/user-guide/rules" +++ "/" +++ rule +++ "/README.md").
  rewrite rule_readme_replaced by auto.
  change ("/user-guide/rules" +++ "/" +++ rule +++ ".md")
    with ("/user-guide/rules/" +++ rule +++ ".md").
  apply (replace_miss main.lowerOrDash "C" "ONTRIBUTING.md"); auto.
Qed.

(** X1.  For every rule name made of lower-case letters and dashes, the
    rewriter of the files below [docs] turns the link to the rule's README in
    the package, [../../lib/rules/<rule>/README.md], into the link to the
    rule's page of the site, [/user-guide/rules/<rule>.md]. *)
Theorem X1_rewriterDocs_rule_link (rule : string) :
  allOf main.lowerOrDash rule = true ->
  main.rewriterDocs ("../../lib/rules/" +++ rule +++ "/README.md")
  = "/user-guide/rules/" +++ rule +++ ".md".
Proof. apply rewriterDocs_rule. Qed.

(** X1 on the rule [color-named]. *)
Lemma X1_witness :
  allOf main.lowerOrDash "color-named" = true
  /\ main.rewriterDocs "../../lib/rules/color-named/README.md"
     = "/user-guide/rules/color-named.md".
Proof.
  split; [reflexivity|].
  exact (@X1_rewriterDocs_rule_link "color-named" eq_refl).
Defined.

(** X2.  For every rule name made of lower-case letters and dashes, the
    README of the rule in the package is written to
    [user-guide/rules/<rule>.md] below the output directory, and that is,
    behind the leading [/], where the links to the rule in the files below
    [docs] point after rewriting. *)
Theorem X2_outputRules_is_the_link_target (rule : string) :
  allOf main.lowerOrDash rule = true ->
  main.outputRules ("node_modules/stylelint/lib/rules/" +++ rule +++ "/README.md")
  = "user-guide/rules/" +++ rule +++ ".md"
  /\ main.rewriterDocs ("../../lib/rules/" +++ rule +++ "/README.md")
     = "/" +++ main.outputRules
                 ("node_modules/stylelint/lib/rules/" +++ rule +++ "/README.md").
Proof.
  intros Hr.
  assert (Hout : main.outputRules
                   ("node_modules/stylelint/lib/rules/" +++ rule +++ "/README.md")
                 = "user-guide/rules/" +++ rule +++ ".md").
  { unfold main.outputRules.
    change ("node_modules/stylelint/lib/rules/" +++ rule +++ "/README.md")
      with ("node_modules/stylelint/lib/rules" +++ "/" +++ rule +++ "/README.md").
    rewrite replace_here.
    apply (rule_readme_replaced "user-guide/rules"); auto. }
  split; [exact Hout|].
  rewrite Hout. now apply rewriterDocs_rule.
Qed.

(** X2 on the rule [color-named]. *)
Lemma X2_witness :
  allOf main.lowerOrDash "color-named" = true
  /\ main.outputRules "node_modules/stylelint/lib/rules/color-named/README.md"
     = "user-guide/rules/color-named.md".
Proof.
  split; [reflexivity|].
  exact (proj1 (@X2_outputRules_is_the_link_target "color-named" eq_refl)).
Defined.

(** ** [main]: the rewriter of the files of the rules *)

Lemma append_nil_r (s : string) : s +++ "" = s.
Proof. induction s as [|c s IH]; [reflexivity | cbn; now rewrite IH]. Qed.

Lemma replaceSibling_step (c : ascii) (u : string) :
  main.matchSibling (String c u) = None ->
  main.replaceSibling (String c u) = String c (main.replaceSibling u).
Proof. intros H. cbn [main.replaceSibling]. now rewrite H. Qed.

Lemma replaceSibling_match (s group rest : string) :
  main.matchSibling s = Some (group, rest) ->
  main.replaceSibling s = group +++ ".md" +++ rest.
Proof. intros H. destruct s; cbn [main.replaceSibling]; now rewrite H. Qed.

Lemma replaceUserGuide_step (c : ascii) (u : string) :
  main.matchUserGuide (String c u) = None ->
  main.replaceUserGuide (String c u) = String c (main.replaceUserGuide u).
Proof. intros H. cbn [main.replaceUserGuide]. now rewrite H. Qed.

Lemma replaceUserGuide_match (s group rest : string) :
  main.matchUserGuide s = Some (group, rest) ->
  main.replaceUserGuide s = "../" +++ group +++ ".md" +++ rest.
Proof. intros H. destruct s; cbn [main.replaceUserGuide]; now rewrite H. Qed.

Lemma matchSibling_needs_prefix (s : string) :
  String.prefix "../" s = false -> main.matchSibling s = None.
Proof. intros H. unfold main.matchSibling. now rewrite H. Qed.

Lemma prefix_shorter (a b s : string) :
  String.prefix (a +++ b) s = true -> String.prefix a s = true.
Proof.
  revert s; induction a as [|c a IH]; intros s H; [apply prefix_nil|].
  destruct s as [|d s]; [discriminate|].
  cbn [String.append] in H. rewrite prefix_cons in *.
  destruct (Ascii.eqb c d); [now apply IH | discriminate].
Qed.

Lemma matchUserGuide_needs_prefix (s : string) :
  String.prefix "../" s = false -> main.matchUserGuide s = None.
Proof.
  intros H. unfold main.matchUserGuide.
  destruct (String.prefix "../../../docs/user-guide/" s) eqn:E; [|reflexivity].
  change "../../../docs/user-guide/" with ("../" +++ "../../docs/user-guide/") in E.
  apply prefix_shorter in E. congruence.
Qed.

Lemma head_not_dot (class : ascii -> bool) (c : ascii) (u : string) :
  class "."%char = false -> class c = true ->
  String.prefix "../" (String c u) = false.
Proof.
  intros Hdot Hc. rewrite prefix_cons.
  destruct (Ascii.eqb_spec "."%char c) as [<-|_]; [congruence | reflexivity].
Qed.

Lemma replaceSibling_skip (class : ascii -> bool) (r s : string) :
  class "."%char = false ->
  allOf class r = true ->
  main.replaceSibling (r +++ s) = r +++ main.replaceSibling s.
Proof.
  intros Hdot. induction r as [|c r IH]; intros Hr; [reflexivity|].
  cbn [allOf] in Hr. apply andb_true_iff in Hr. destruct Hr as [Hc Hr].
  cbn [String.append]. rewrite replaceSibling_step.
  - now rewrite IH.
  - apply matchSibling_needs_prefix. now apply (head_not_dot class).
Qed.

Lemma replaceUserGuide_skip (class : ascii -> bool) (r s : string) :
  class "."%char = false ->
  allOf class r = true ->
  main.replaceUserGuide (r +++ s) = r +++ main.replaceUserGuide s.
Proof.
  intros Hdot. induction r as [|c r IH]; intros Hr; [reflexivity|].
  cbn [allOf] in Hr. apply andb_true_iff in Hr. destruct Hr as [Hc Hr].
  cbn [String.append]. rewrite replaceUserGuide_step.
  - now rewrite IH.
  - apply matchUserGuide_needs_prefix. now apply (head_not_dot class).
Qed.

(** X3.  For every rule name of at least one lower-case letter or dash, the
    rewriter of the files of the rules turns the link to a sibling rule,
    [../<rule>/README.md], into the link to its page, [<rule>.md]. *)
Theorem X3_rewriterRules_sibling_rule (rule : string) :
  rule <> "" ->
  allOf main.lowerOrDash rule = true ->
  main.rewriterRules ("../" +++ rule +++ "/README.md") = rule +++ ".md".
Proof.
  intros Hne Hr. unfold main.rewriterRules.
  rewrite (@replaceSibling_match _ rule "").
  - rewrite append_nil_r.
    rewrite (replaceUserGuide_skip main.lowerOrDash) by auto.
    reflexivity.
  - unfold main.matchSibling.
    rewrite prefix_app_self, drop_app.
    rewrite span_app by auto.
    destruct rule as [|c rule]; [contradiction | reflexivity].
Qed.

(** X3 on the rule [color-named]. *)
Lemma X3_witness :
  "color-named" <> ""
  /\ allOf main.lowerOrDash "color-named" = true
  /\ main.rewriterRules "../color-named/README.md" = "color-named.md".
Proof.
  assert (Hne : "color-named" <> "") by discriminate.
  split; [exact Hne|]. split; [reflexivity|].
  exact (@X3_rewriterRules_sibling_rule "color-named" Hne eq_refl).
Defined.

(** X4.  For every page path of at least one lower-case letter, dash or
    slash, the rewriter of the files of the rules turns the link from a rule
    into the user guide of the package,
    [../../../docs/user-guide/<page>.md], into [../<page>.md]. *)
Theorem X4_rewriterRules_user_guide (page : string) :
  page <> "" ->
  allOf main.lowerDashOrSlash page = true ->
  main.rewriterRules ("../../../docs/user-guide/" +++ page +++ ".md")
  = "../" +++ page +++ ".md".
Proof.
  intros Hne Hp. unfold main.rewriterRules.
  assert (Hsibling : main.replaceSibling ("../../../docs/user-guide/" +++ page +++ ".md")
                     = "../../../docs/user-guide/" +++ page +++ ".md").
  { cbn [String.append].
    repeat (rewrite replaceSibling_step by reflexivity).
    rewrite (replaceSibling_skip main.lowerDashOrSlash) by auto.
    reflexivity. }
  rewrite Hsibling.
  rewrite (@replaceUserGuide_match _ page "").
  - now rewrite append_nil_r.
  - unfold main.matchUserGuide.
    rewrite prefix_app_self, drop_app.
    rewrite span_app by auto.
    destruct page as [|c page]; [contradiction | reflexivity].
Qed.

(** X4 on the page [usage/options]. *)
Lemma X4_witness :
  "usage/options" <> ""
  /\ allOf main.lowerDashOrSlash "usage/options" = true
  /\ main.rewriterRules "../../../docs/user-guide/usage/options.md"
     = "../usage/options.md".
Proof.
  assert (Hne : "usage/options" <> "") by discriminate.
  split; [exact Hne|]. split; [reflexivity|].
  exact (@X4_rewriterRules_user_guide "usage/options" Hne eq_refl).
Defined.

(** ** [main]: the rewriter of the files at the top of the package *)

Lemma replaceDocsPrefix_docs (rest : string) :
  main.replaceDocsPrefix ("docs/" +++ rest) = "/" +++ rest
  /\ main.replaceDocsPrefix ("/docs/" +++ rest) = "/" +++ rest.
Proof.
  unfold main.replaceDocsPrefix. split.
  - change (String.prefix "/docs/" ("docs/" +++ rest)) with false. cbv iota.
    now rewrite prefix_app_self, drop_app.
  - now rewrite prefix_app_self, drop_app.
Qed.

(** X5.  For a path without a capital R, the rewriter of the files at the
    top of the package makes a link into [docs], with or without a leading
    slash, a link from the root of the site, and on the way a link to a
    README the link to the index page of the same directory. *)
Theorem X5_rewriterRoot_docs_links (dir : string) :
  allOf (isNot "R") dir = true ->
  main.rewriterRoot ("docs/" +++ dir) = "/" +++ dir
  /\ main.rewriterRoot ("/docs/" +++ dir) = "/" +++ dir
  /\ main.rewriterRoot ("docs/" +++ dir +++ "README.md") = "/" +++ dir +++ "index.md"
  /\ main.rewriterRoot ("/docs/" +++ dir +++ "README.md") = "/" +++ dir +++ "index.md".
Proof.
  intros Hdir. unfold main.rewriterRoot.
  destruct (replaceDocsPrefix_docs dir) as [-> ->].
  destruct (replaceDocsPrefix_docs (dir +++ "README.md")) as [-> ->].
  assert (Hplain : main.replace "README.md" "index.md" ("/" +++ dir) = "/" +++ dir).
  { rewrite <- (append_nil_r dir) at 1.
    rewrite (replace_miss (isNot "R") "R" "EADME.md") by auto.
    now rewrite append_nil_r. }
  assert (Hreadme : main.replace "README.md" "index.md" ("/" +++ dir +++ "README.md")
                    = "/" +++ dir +++ "index.md").
  { rewrite replace_over by reflexivity.
    rewrite (replace_skip (isNot "R")) by auto.
    reflexivity. }
  now rewrite Hplain, Hreadme.
Qed.

(** X5 on the user guide. *)
Lemma X5_witness :
  allOf (isNot "R") "user-guide/" = true
  /\ main.rewriterRoot "docs/user-guide/README.md" = "/user-guide/index.md".
Proof.
  split; [reflexivity|].
  exact (proj1 (proj2 (proj2 (@X5_rewriterRoot_docs_links "user-guide/" eq_refl)))).
Defined.

(** ** Links that no rewriter touches *)

Lemma occurs_prefix_part (a b s : string) :
  occurs (a +++ b) s = true -> occurs a s = true.
Proof.
  induction s as [|c s IH]; cbn [occurs]; intros H.
  - apply orb_true_iff in H. destruct H as [H|H]; [|discriminate].
    apply prefix_shorter in H. now rewrite H.
  - apply orb_true_iff in H. destruct H as [H|H].
    + apply prefix_shorter in H. now rewrite H.
    + rewrite (IH H). apply orb_true_r.
Qed.

Lemma prefix_then_occurs (a b s : string) :
  String.prefix (a +++ b) s = true -> occurs b s = true.
Proof.
  revert s; induction a as [|c a IH]; intros s H.
  - cbn [String.append] in H. destruct s; cbn [occurs]; now rewrite H.
  - destruct s as [|d s]; [discriminate|].
    cbn [String.append] in H. rewrite prefix_cons in H.
    destruct (Ascii.eqb c d); [|discriminate].
    cbn [occurs]. rewrite (IH s H). apply orb_true_r.
Qed.

Lemma occurs_suffix_part (a b s : string) :
  occurs (a +++ b) s = true -> occurs b s = true.
Proof.
  induction s as [|c s IH]; cbn [occurs]; intros H.
  - apply orb_true_iff in H. destruct H as [H|H]; [|discriminate].
    apply prefix_then_occurs in H. exact H.
  - apply orb_true_iff in H. destruct H as [H|H].
    + apply prefix_then_occurs in H. exact H.
    + change (occurs b (String c s)) with (String.prefix b (String c s) || occurs b s).
      rewrite (IH H). apply orb_true_r.
Qed.

Lemma absent_longer (a b s : string) :
  occurs a s = false -> occurs (a +++ b) s = false.
Proof.
  intros H. destruct (occurs (a +++ b) s) eqn:E; [|reflexivity].
  apply occurs_prefix_part in E. congruence.
Qed.

Lemma absent_behind (a b s : string) :
  occurs b s = false -> occurs (a +++ b) s = false.
Proof.
  intros H. destruct (occurs (a +++ b) s) eqn:E; [|reflexivity].
  apply occurs_suffix_part in E. congruence.
Qed.

Lemma replaceSibling_absent (s : string) :
  occurs "../" s = false -> main.replaceSibling s = s.
Proof.
  induction s as [|c s IH]; cbn [occurs]; intros H.
  - reflexivity.
  - apply orb_false_iff in H. destruct H as [Hp Hs].
    rewrite replaceSibling_step by now apply matchSibling_needs_prefix.
    now rewrite IH.
Qed.

Lemma replaceUserGuide_absent (s : string) :
  occurs "../" s = false -> main.replaceUserGuide s = s.
Proof.
  induction s as [|c s IH]; cbn [occurs]; intros H.
  - reflexivity.
  - apply orb_false_iff in H. destruct H as [Hp Hs].
    rewrite replaceUserGuide_step by now apply matchUserGuide_needs_prefix.
    now rewrite IH.
Qed.

(** X6.  A link that does not start with [docs/] or [/docs/] and holds none
    of [../], [README.md] and [CONTRIBUTING.md], such as a link to another
    site or to a section of the page, comes out of each of the three
    rewriters as it went in. *)
Theorem X6_rewriters_leave_other_links (url : string) :
  String.prefix "docs/" url = false ->
  String.prefix "/docs/" url = false ->
  occurs "../" url = false ->
  occurs "README.md" url = false ->
  occurs "CONTRIBUTING.md" url = false ->
  main.rewriterRoot url = url
  /\ main.rewriterDocs url = url
  /\ main.rewriterRules url = url.
Proof.
  intros Hdocs Hslash Hup Hreadme Hcontributing. repeat split.
  - unfold main.rewriterRoot, main.replaceDocsPrefix.
    rewrite Hdocs, Hslash. now apply replace_absent.
  - unfold main.rewriterDocs.
    rewrite (@replace_absent "../../lib/rules/index.js")
      by exact (@absent_longer "../" "../lib/rules/index.js" url Hup).
    rewrite (@replace_absent "../../CHANGELOG.md")
      by exact (@absent_longer "../" "../CHANGELOG.md" url Hup).
    rewrite (@replace_absent "../../VISION.md")
      by exact (@absent_longer "../" "../VISION.md" url Hup).
    rewrite (@replace_absent "../../lib/rules/")
      by exact (@absent_longer "../" "../lib/rules/" url Hup).
    rewrite (@replace_absent "/README.md")
      by exact (@absent_behind "/" "README.md" url Hreadme).
    now apply replace_absent.
  - unfold main.rewriterRules.
    rewrite (replaceSibling_absent url Hup).
    now apply replaceUserGuide_absent.
Qed.

(** X6 on a link to another site. *)
Lemma X6_witness :
  main.rewriterRoot "https://stylelint.io/#rules" = "https://stylelint.io/#rules"
  /\ main.rewriterDocs "https://stylelint.io/#rules" = "https://stylelint.io/#rules"
  /\ main.rewriterRules "https://stylelint.io/#rules" = "https://stylelint.io/#rules".
Proof.
  exact (@X6_rewriters_leave_other_links "https://stylelint.io/#rules"
           eq_refl eq_refl eq_refl eq_refl eq_refl).
Defined.

(** ** The chain of passes on a document without anything to do *)

Lemma visit_no_match (test : Node -> bool) (visitor : Visitor) (fuel : nat) (tree : Node) :
  contains test tree = false ->
  2 * size tree <= fuel ->
  visit test visitor fuel tree = Return tree.
Proof.
  intros Hnone Hfuel. unfold visit, call.
  destruct tree as [t [cs|] v u q].
  - apply contains_children in Hnone. destruct Hnone as [Ht Hcs]. rewrite Ht.
    cbn [bind in_place v_node].
    apply (@walk_list_no_match test visitor cs) with (done := @nil Node).
    + apply forallb_forall. intros c Hin. rewrite Forall_forall in Hcs.
      now rewrite (Hcs c Hin).
    + simpl in Hfuel. lia.
    + reflexivity.
  - cbn [contains] in Hnone. apply orb_false_iff in Hnone. destruct Hnone as [Ht _].
    rewrite Ht. cbn [bind in_place v_node].
    destruct fuel as [|f]; [simpl in Hfuel; lia | reflexivity].
Qed.

Section Rewritten.

Variable rewriter : option string -> option string.

Lemma value_or_empty_rewritten (x : option Node) :
  wrapProblemExample.value_or_empty (option_map (rewritten rewriter) x)
  = wrapProblemExample.value_or_empty x.
Proof. destruct x as [[t cs v u q]|]; reflexivity. Qed.

Lemma isTrigger_rewritten (n : Node) :
  wrapProblemExample.isTrigger (rewritten rewriter n) = wrapProblemExample.isTrigger n.
Proof.
  destruct n as [t [cs|] v u q]; [|reflexivity].
  unfold wrapProblemExample.isTrigger. cbn [rewritten type children].
  rewrite !nth_error_map, !value_or_empty_rewritten. reflexivity.
Qed.

Lemma contains_rewritten (test : Node -> bool) (n : Node) :
  (forall m, test (rewritten rewriter m) = test m) ->
  contains test (rewritten rewriter n) = contains test n.
Proof.
  intros Htest. induction n as [t cs v u q IH] using Node_ind.
  pose proof (Htest (mkNode t cs v u q)) as Hn.
  destruct cs as [l|].
  - cbn [rewritten] in *. cbn [contains]. rewrite Hn. f_equal. clear Hn.
    cbn [all_children] in IH.
    induction IH as [|c l Hc Hl IHl]; [reflexivity|].
    cbn [map existsb]. now rewrite Hc, IHl.
  - cbn [rewritten] in *. cbn [contains]. now rewrite Hn.
Qed.

End Rewritten.

(** X7.  On a document that holds no trigger paragraph, no blockquote and no
    text node that is one of the two symbols, the chain of the four passes
    changes the [url] of the links and nothing else. *)
Theorem X7_passes_on_a_plain_document
    (rewriter : option string -> option string) (fuel : nat) (tree : Node) :
  contains wrapProblemExample.isTrigger tree = false ->
  contains convertToAdmonitions.test tree = false ->
  contains makeRuleSymbolsAccessbile.test tree = false ->
  2 * size tree <= fuel ->
  pipeline.run rewriter fuel tree = Return (rewritten rewriter tree).
Proof.
  intros Htrigger Hquote Hsymbol Hfuel. unfold pipeline.run.
  rewrite rewriteLink_transform by exact Hfuel. cbn [bind].
  assert (Hsize : 2 * size (rewritten rewriter tree) <= fuel)
    by now rewrite size_rewritten.
  unfold wrapProblemExample.transform.
  rewrite visit_no_match; [cbn [bind] | | exact Hsize].
  2: { rewrite contains_rewritten; [exact Htrigger|].
       intros m. apply isTrigger_rewritten. }
  unfold convertToAdmonitions.transform.
  rewrite visit_no_match; [cbn [bind] | | exact Hsize].
  2: { rewrite contains_rewritten; [exact Hquote|].
       intros [t cs v u q]. reflexivity. }
  unfold makeRuleSymbolsAccessbile.transform.
  apply visit_no_match; [|exact Hsize].
  rewrite contains_rewritten; [exact Hsymbol|].
  intros [t cs v u q]. reflexivity.
Qed.

(** X7 on the document with the two links. *)
Lemma X7_witness :
  pipeline.run readme_to_index 24 linked_document
  = Return (rewritten readme_to_index linked_document).
Proof.
  apply (@X7_passes_on_a_plain_document readme_to_index 24 linked_document).
  - reflexivity.
  - reflexivity.
  - reflexivity.
  - vm_compute. lia.
Defined.

(** ** [wrapProblemExample]: what the visitor does to a trigger *)

(** X8.  For a paragraph whose second child, when there is one, has a
    [children] array, the visitor keeps the node and all its siblings in
    their order and inserts two markers: the opening one right behind the
    node, the closing one in front of the first later sibling that is a
    trigger or a heading, or at the end when there is none. *)
Theorem X8_wrap_visitor_inserts_two_markers
    (node : Node) (index : nat) (siblings cs : list Node) :
  nth_error siblings index = Some node ->
  children node = Some cs ->
  (forall second, nth_error cs 1 = Some second -> children second <> None) ->
  exists valid wrapped tail,
    skipn (S index) siblings = wrapped ++ tail
    /\ forallb (fun c => negb (wrapProblemExample.boundary c)) wrapped = true
    /\ (tail = [] \/ exists b tail', tail = b :: tail' /\ wrapProblemExample.boundary b = true)
    /\ wrapProblemExample.visitor node (Some (index, siblings))
       = Return
           (mkVisited node
              (firstn (S index) siblings
               ++ [wrapProblemExample.wrapperStart valid]
               ++ wrapped
               ++ [wrapProblemExample.wrapperEnd]
               ++ tail)
              (Stays index)).
Proof.
  intros Hnode Hcs Hsecond.
  assert (Hindex : index < length siblings).
  { apply nth_error_Some. now rewrite Hnode. }
  destruct (isValid_returns node Hcs Hsecond) as [valid Hvalid].
  destruct (wrap_visitor_markers node siblings Hindex Hvalid)
    as (wrapped & tail & H1 & H2 & H3 & H4).
  exists valid, wrapped, tail. auto.
Qed.

(** X8 on the plain trigger between a paragraph and a heading. *)
Lemma X8_witness :
  exists valid wrapped tail,
    wrapProblemExample.visitor trigger_plain
      (Some (1, [remark_with_not; trigger_plain; code_example;
                 mdast.heading "2" [mdast.text "Options"]]))
    = Return
        (mkVisited trigger_plain
           ([remark_with_not; trigger_plain]
            ++ [wrapProblemExample.wrapperStart valid]
            ++ wrapped
            ++ [wrapProblemExample.wrapperEnd]
            ++ tail)
           (Stays 1)).
Proof.
  destruct (@X8_wrap_visitor_inserts_two_markers
              trigger_plain 1
              [remark_with_not; trigger_plain; code_example;
               mdast.heading "2" [mdast.text "Options"]]
              [mdast.text "The following patterns are considered problems:"]
              eq_refl eq_refl)
    as (valid & wrapped & tail & _ & _ & _ & H).
  - intros second Hsecond. discriminate Hsecond.
  - exists valid, wrapped, tail. exact H.
Defined.

Lemma isValid_throws (node : Node) :
  wrapProblemExample.isValid node = Throw
  <-> children node = None
      \/ exists cs second,
           children node = Some cs /\ nth_error cs 1 = Some second
           /\ children second = None.
Proof.
  unfold wrapProblemExample.isValid.
  destruct (children node) as [cs|]; [|split; auto].
  destruct (nth_error cs 1) as [second|] eqn:Hsecond.
  - destruct (children second) as [gs|] eqn:Hgs.
    + destruct (nth_error gs 0);
        (split; [discriminate|];
         intros [H|(cs' & second' & H1 & H2 & H3)]; [discriminate|];
         assert (cs' = cs) by congruence; subst cs';
         assert (second' = second) by congruence; subst second'; congruence).
    + split; auto. intros _. right. exists cs, second. auto.
  - split; [discriminate|].
    intros [H|(cs' & second' & H1 & H2 & H3)]; [discriminate|].
    assert (cs' = cs) by congruence. subst cs'. congruence.
Qed.

(** X9.  Called on a trigger paragraph that has a parent, the visitor throws
    exactly when the paragraph has a second child without a [children]
    array (a code span, a line break, an image); on every other trigger it
    returns. *)
Theorem X9_wrap_visitor_throws_exactly
    (node : Node) (index : nat) (siblings : list Node) :
  wrapProblemExample.isTrigger node = true ->
  (wrapProblemExample.visitor node (Some (index, siblings)) = Throw
   <-> exists cs second,
         children node = Some cs /\ nth_error cs 1 = Some second
         /\ children second = None)
  /\ (wrapProblemExample.visitor node (Some (index, siblings)) <> Throw ->
      exists r, wrapProblemExample.visitor node (Some (index, siblings)) = Return r).
Proof.
  intros Htrigger.
  destruct (isTrigger_children node Htrigger) as [cs Hcs].
  assert (Hvisitor :
    wrapProblemExample.visitor node (Some (index, siblings)) = Throw
    <-> wrapProblemExample.isValid node = Throw).
  { unfold wrapProblemExample.visitor.
    destruct (wrapProblemExample.isValid node) eqn:E; cbn [bind];
      split; intros H; try discriminate; reflexivity. }
  split.
  - rewrite Hvisitor, isValid_throws. split.
    + intros [H|H]; [congruence | exact H].
    + intros H. now right.
  - intros Hno. unfold wrapProblemExample.visitor in *.
    destruct (wrapProblemExample.isValid node) eqn:E; cbn [bind] in *.
    + eexists. reflexivity.
    + contradiction.
    + unfold wrapProblemExample.isValid in E. rewrite Hcs in E.
      destruct (nth_error cs 1) as [second|]; [|discriminate].
      destruct (children second) as [gs|]; [|discriminate].
      destruct (nth_error gs 0); discriminate.
    + unfold wrapProblemExample.isValid in E. rewrite Hcs in E.
      destruct (nth_error cs 1) as [second|]; [|discriminate].
      destruct (children second) as [gs|]; [|discriminate].
      destruct (nth_error gs 0); discriminate.
Qed.

(** X9 on the trigger with a code span. *)
Lemma X9_witness :
  wrapProblemExample.isTrigger trigger_code_span = true
  /\ (wrapProblemExample.visitor trigger_code_span (Some (0, [trigger_code_span])) = Throw
      <-> exists cs second,
            children trigger_code_span = Some cs /\ nth_error cs 1 = Some second
            /\ children second = None).
Proof.
  split; [reflexivity|].
  exact (proj1 (@X9_wrap_visitor_throws_exactly
                  trigger_code_span 0 [trigger_code_span] eq_refl)).
Defined.

(** X10.  On a document whose top-level blocks hold one trigger, with a
    second child that is absent or has a [children] array, and no other
    trigger anywhere, the whole pass returns the document with the two
    markers around the blocks between the trigger and the next heading (or
    the end) and with nothing else changed: the walk does not come back to
    the trigger and does not take a marker for a trigger. *)
Theorem X10_wrap_pass_on_a_document
    (before after : list Node) (trigger : Node) (valid : bool) (fuel : nat) :
  wrapProblemExample.isTrigger trigger = true ->
  wrapProblemExample.isValid trigger = Return valid ->
  existsb (contains wrapProblemExample.isTrigger) (before ++ after) = false ->
  (forall cs, children trigger = Some cs ->
              existsb (contains wrapProblemExample.isTrigger) cs = false) ->
  3 * size (mdast.root (before ++ trigger :: after)) + 8 <= fuel ->
  exists wrapped tail,
    after = wrapped ++ tail
    /\ forallb (fun c => negb (wrapProblemExample.boundary c)) wrapped = true
    /\ (tail = [] \/ exists b tail', tail = b :: tail' /\ wrapProblemExample.boundary b = true)
    /\ wrapProblemExample.transform fuel (mdast.root (before ++ trigger :: after))
       = Return
           (mdast.root
              (before
               ++ [trigger; wrapProblemExample.wrapperStart valid]
               ++ wrapped
               ++ [wrapProblemExample.wrapperEnd]
               ++ tail)).
Proof. intros. now apply wrapProblemExample_in_document. Qed.

(** X10 on a rule's page: a heading, the trigger, the examples, a heading. *)
Lemma X10_witness :
  exists wrapped tail,
    [code_example; code_example; mdast.heading "2" [mdast.text "Options"]]
    = wrapped ++ tail
    /\ wrapProblemExample.transform 60
         (mdast.root
            ([mdast.heading "1" [mdast.text "color-named"]]
             ++ trigger_not
                :: [code_example; code_example; mdast.heading "2" [mdast.text "Options"]]))
       = Return
           (mdast.root
              ([mdast.heading "1" [mdast.text "color-named"]]
               ++ [trigger_not; wrapProblemExample.wrapperStart true]
               ++ wrapped
               ++ [wrapProblemExample.wrapperEnd]
               ++ tail)).
Proof.
  destruct (@X10_wrap_pass_on_a_document
              [mdast.heading "1" [mdast.text "color-named"]]
              [code_example; code_example; mdast.heading "2" [mdast.text "Options"]]
              trigger_not true 60 eq_refl eq_refl eq_refl)
    as (wrapped & tail & Hsplit & _ & _ & Hpass).
  - intros cs Hcs.
    assert (Hc : cs = [ mdast.text "The following patterns are ";
                        mdast.emphasis [mdast.text "not"];
                        mdast.text " considered problems:" ])
      by (cbn in Hcs; congruence).
    rewrite Hc. reflexivity.
  - vm_compute. lia.
  - exists wrapped, tail. split; [exact Hsplit | exact Hpass].
Defined.

(** ** A walk on which the visitor changes nothing *)

Section Quiet.

Variable test : Node -> bool.
Variable visitor : Visitor.
Variable quiet : Node -> bool.

Hypothesis visitor_quiet :
  forall m ctx, test m = true -> quiet m = true ->
                visitor m ctx = Return (in_place m ctx).

Lemma walk_quiet (c : Node) :
  everywhere (fun m => negb (test m) || quiet m) c = true ->
  passed_by test visitor c.
Proof.
  induction c as [t cs v u q IH] using Node_ind.
  intros Hc fuel offset siblings Hfuel.
  destruct fuel as [|f]; [pose proof (size_pos (mkNode t cs v u q)); lia|].
  cbn [everywhere] in Hc. apply andb_true_iff in Hc. destruct Hc as [Hnode Hcs].
  assert (Hcall : call test visitor (mkNode t cs v u q) (Some (offset, siblings))
                  = Return (in_place (mkNode t cs v u q) (Some (offset, siblings)))).
  { unfold call. destruct (test (mkNode t cs v u q)) eqn:Ht; [|reflexivity].
    apply visitor_quiet; [exact Ht|]. cbv beta in Hnode. rewrite ?Ht in Hnode. exact Hnode. }
  rewrite visit_one_step, Hcall.
  cbn [bind in_place v_place v_node v_children].
  destruct cs as [l|].
  - rewrite (@walk_all_no_match test visitor l) with (done := @nil Node).
    + reflexivity.
    + cbn [all_children] in IH. rewrite Forall_forall in IH |- *.
      rewrite forallb_forall in Hcs.
      intros c Hin. apply IH; [exact Hin | apply Hcs, Hin].
    + simpl in Hfuel. simpl. lia.
    + reflexivity.
  - destruct f as [|f]; [simpl in Hfuel; lia|]. reflexivity.
Qed.

Lemma visit_quiet (fuel : nat) (tree : Node) :
  everywhere (fun m => negb (test m) || quiet m) tree = true ->
  2 * size tree <= fuel ->
  visit test visitor fuel tree = Return tree.
Proof.
  intros Hall Hfuel.
  destruct tree as [t cs v u q].
  cbn [everywhere] in Hall. apply andb_true_iff in Hall. destruct Hall as [Hnode Hcs].
  assert (Hcall : call test visitor (mkNode t cs v u q) None
                  = Return (in_place (mkNode t cs v u q) None)).
  { unfold call. destruct (test (mkNode t cs v u q)) eqn:Ht; [|reflexivity].
    apply visitor_quiet; [exact Ht|]. cbv beta in Hnode. rewrite ?Ht in Hnode. exact Hnode. }
  unfold visit. rewrite Hcall. cbn [bind in_place v_node].
  destruct cs as [l|].
  - apply (@walk_all_no_match test visitor l) with (done := @nil Node).
    + apply Forall_forall. rewrite forallb_forall in Hcs.
      intros c Hin. apply walk_quiet. apply Hcs, Hin.
    + simpl in Hfuel. lia.
    + reflexivity.
  - destruct fuel as [|f]; [simpl in Hfuel; lia | reflexivity].
Qed.

End Quiet.

(** ** [convertToAdmonitions]: blockquotes that are no admonitions *)

Lemma plainQuote_passes (blockquote : Node) (ctx : option (nat * list Node)) :
  plainQuote blockquote = true ->
  convertToAdmonitions.visitor blockquote ctx = Return (in_place blockquote ctx).
Proof.
  unfold plainQuote, convertToAdmonitions.visitor.
  destruct (children blockquote) as [[|paragraph others]|]; try discriminate.
  destruct (String.eqb (type paragraph) "paragraph"); cbn [negb]; [|reflexivity].
  destruct (children paragraph) as [[|strong restChildren]|]; try discriminate.
  destruct (String.eqb (type strong) "strong"); cbn [negb]; [|reflexivity].
  destruct (children strong) as [inner|]; [|discriminate].
  destruct (convertToAdmonitions.gfmToAdmonitions
              match inner with [] => None | text :: _ => value text end);
    [discriminate | reflexivity].
Qed.

(** X11.  A document in which every blockquote is a plain one (it has a
    first child, and what starts it is not a strong "Note" or "Warning")
    comes out of the admonition pass unchanged, however deep the blockquotes
    are nested. *)
Theorem X11_plain_blockquotes_pass_through (fuel : nat) (tree : Node) :
  everywhere noAdmonition tree = true ->
  2 * size tree <= fuel ->
  convertToAdmonitions.transform fuel tree = Return tree.
Proof.
  intros Hall Hfuel. unfold convertToAdmonitions.transform.
  apply (@visit_quiet convertToAdmonitions.test convertToAdmonitions.visitor plainQuote).
  - intros m ctx _ Hm. now apply plainQuote_passes.
  - exact Hall.
  - exact Hfuel.
Qed.

(** X11 on a quotation with a quotation inside. *)
Lemma X11_witness :
  let document :=
    mdast.root
      [ mdast.paragraph [mdast.text "As the guide says:"];
        mdast.blockquote
          [ mdast.paragraph [mdast.strong [mdast.text "Tip"]; mdast.text " Keep it short."];
            mdast.blockquote [mdast.paragraph [mdast.text "Nested."]] ] ] in
  convertToAdmonitions.transform 30 document = Return document.
Proof.
  intros document.
  apply (@X11_plain_blockquotes_pass_through 30 document).
  - reflexivity.
  - vm_compute. lia.
Defined.

(** X12.  On a document whose top-level blocks hold one admonition and that
    has no other blockquote, the whole pass returns the document with the
    three paragraphs in the place of the admonition and nothing else
    changed: the walk goes on behind the new paragraphs and does not touch
    them again. *)
Theorem X12_admonition_pass_on_a_document
    (before after : list Node) (blockquote paragraph : Node) (others : list Node)
    (strong : Node) (restChildren : list Node)
    (text : Node) (more : list Node) (label : string) (fuel : nat) :
  type blockquote = "blockquote" ->
  children blockquote = Some (paragraph :: others) ->
  type paragraph = "paragraph" ->
  children paragraph = Some (strong :: restChildren) ->
  type strong = "strong" ->
  children strong = Some (text :: more) ->
  value text = Some label ->
  label = "Note" \/ label = "Warning" ->
  existsb (contains convertToAdmonitions.test)
    (before ++ after ++ others ++ strong :: restChildren) = false ->
  3 * size (mdast.root (before ++ blockquote :: after)) + 8 <= fuel ->
  convertToAdmonitions.transform fuel (mdast.root (before ++ blockquote :: after))
  = Return
      (mdast.root
         (before
          ++ [ mdast.paragraph
                 [mdast.text
                    (":::" +++ (if String.eqb label "Note" then "note" else "caution")
                     +++ " " +++ label)];
               mdast.paragraph (convertToAdmonitions.trimFirst restChildren);
               mdast.paragraph [mdast.text ":::"] ]
          ++ after)).
Proof. intros. eapply convertToAdmonitions_in_document; eassumption. Qed.

(** X12 on a warning between a heading and a code block. *)
Lemma X12_witness :
  convertToAdmonitions.transform 60
    (mdast.root
       ([mdast.heading "2" [mdast.text "Usage"]]
        ++ mdast.blockquote
             [ mdast.paragraph
                 [mdast.strong [mdast.text "Warning"]; mdast.text " Slow."] ]
           :: [code_example]))
  = Return
      (mdast.root
         ([mdast.heading "2" [mdast.text "Usage"]]
          ++ [ mdast.paragraph [mdast.text ":::caution Warning"];
               mdast.paragraph
                 (convertToAdmonitions.trimFirst [mdast.text " Slow."]);
               mdast.paragraph [mdast.text ":::"] ]
          ++ [code_example])).
Proof.
  apply (@X12_admonition_pass_on_a_document
           [mdast.heading "2" [mdast.text "Usage"]] [code_example]
           (mdast.blockquote
              [ mdast.paragraph
                  [mdast.strong [mdast.text "Warning"]; mdast.text " Slow."] ])
           (mdast.paragraph [mdast.strong [mdast.text "Warning"]; mdast.text " Slow."])
           []
           (mdast.strong [mdast.text "Warning"])
           [mdast.text " Slow."]
           (mdast.text "Warning") [] "Warning" 60);
    try reflexivity.
  - right. reflexivity.
  - vm_compute. lia.
Defined.

(** ** [makeRuleSymbolsAccessbile]: the first symbol of a parent *)

(** X13.  When the children of the top node hold a symbol node, a text node
    without children, and no node in front of it holds one, the pass leaves
    the top node with one child, the markup node of that symbol: the nodes
    in front of the symbol and behind it are gone, later symbols among them
    too. *)
Theorem X13_first_symbol_replaces_all_children
    (tree sym : Node) (pre post : list Node) (fuel : nat) :
  children tree = Some (pre ++ sym :: post) ->
  makeRuleSymbolsAccessbile.test tree = false ->
  existsb (contains makeRuleSymbolsAccessbile.test) pre = false ->
  makeRuleSymbolsAccessbile.test sym = true ->
  children sym = None ->
  3 * size tree + 4 <= fuel ->
  makeRuleSymbolsAccessbile.transform fuel tree
  = Return
      (set_children tree
         [makeRuleSymbolsAccessbile.span
            (makeRuleSymbolsAccessbile.symbols_get (value sym)) (value sym)]).
Proof.
  intros Hcs Htree Hpre Hsym Hleaf Hfuel.
  pose proof (length_le_size pre) as Hlen.
  assert (Hsize : size tree = S (list_sum (map size pre) + (size sym + list_sum (map size post)))).
  { rewrite (size_parent tree Hcs), map_app, list_sum_app. reflexivity. }
  unfold makeRuleSymbolsAccessbile.transform, visit, call.
  rewrite Htree. cbn [bind in_place v_node].
  replace fuel with (length pre + S (S (S (fuel - length pre - 3)))) by lia.
  set (f := fuel - length pre - 3).
  rewrite (@walk_prefix makeRuleSymbolsAccessbile.test makeRuleSymbolsAccessbile.visitor pre)
    with (done := @nil Node) (rest := sym :: post).
  2: { now rewrite forallb_negb_existsb, Hpre. }
  2: { subst f. lia. }
  2: { exact Hcs. }
  cbn [length Nat.add].
  rewrite visit_all_step, Hcs, nth_error_middle.
  rewrite visit_one_step. unfold call. rewrite Hsym.
  unfold makeRuleSymbolsAccessbile.visitor.
  cbn [bind v_place v_node v_children existsb].
  rewrite visit_all_step, Hleaf. cbn [bind].
  rewrite visit_all_step. cbn [set_children children].
  replace (nth_error
             [makeRuleSymbolsAccessbile.span
                (makeRuleSymbolsAccessbile.symbols_get (value sym)) (value sym)]
             (S (length pre))) with (@None Node).
  - reflexivity.
  - symmetry. apply nth_error_None. simpl. lia.
Qed.

(** X13 on a paragraph with an emphasis, the check mark and the wrench. *)
Lemma X13_witness :
  let cell :=
    mdast.paragraph
      [mdast.emphasis [mdast.text "fixable"]; mdast.text "✅"; mdast.text "🔧"] in
  makeRuleSymbolsAccessbile.transform 30 cell
  = Return
      (set_children cell
         [makeRuleSymbolsAccessbile.span (Some "Standard") (Some "✅")]).
Proof.
  intros cell.
  apply (@X13_first_symbol_replaces_all_children
           cell (mdast.text "✅")
           [mdast.emphasis [mdast.text "fixable"]] [mdast.text "🔧"] 30);
    try reflexivity.
  vm_compute. lia.
Defined.

(** ** [processMarkdown]: where the title comes from *)

Lemma append_assoc3 (a b c : string) : (a +++ b) +++ c = a +++ b +++ c.
Proof. apply append_assoc. Qed.

Lemma upToLF_split (s : string) :
  s = fst (processMarkdown.upToLF s) +++ snd (processMarkdown.upToLF s)
  /\ allOf (isNot LF) (fst (processMarkdown.upToLF s)) = true
  /\ (snd (processMarkdown.upToLF s) = ""
      \/ exists r, snd (processMarkdown.upToLF s) = String LF r).
Proof.
  induction s as [|c s IH].
  - cbn. auto.
  - cbn [processMarkdown.upToLF].
    destruct (Ascii.eqb_spec c LF) as [->|Hc].
    + cbn. repeat split. right. eauto.
    + destruct (processMarkdown.upToLF s) as [line rest].
      cbn [fst snd] in *. destruct IH as (Hs & Hline & Hrest).
      repeat split.
      * cbn [String.append]. now rewrite <- Hs.
      * cbn [allOf]. rewrite Hline. unfold isNot.
        destruct (Ascii.eqb_spec c LF); [contradiction | reflexivity].
      * exact Hrest.
Qed.

Lemma upToLF_title (t post : string) :
  allOf (isNot LF) t = true ->
  processMarkdown.upToLF (t +++ nl +++ post) = (t, nl +++ post).
Proof.
  induction t as [|c t IH]; intros Ht; [reflexivity|].
  cbn [allOf] in Ht. apply andb_true_iff in Ht. destruct Ht as [Hc Ht].
  cbn [String.append processMarkdown.upToLF].
  unfold isNot in Hc. destruct (Ascii.eqb c LF); [discriminate|].
  now rewrite IH.
Qed.

Lemma matchHash_complete (t post : string) :
  t <> "" -> allOf (isNot LF) t = true ->
  processMarkdown.matchHash ("# " +++ t +++ nl +++ post) = Some t.
Proof.
  intros Hne Ht. cbn [String.append processMarkdown.matchHash].
  rewrite (upToLF_title t post Ht).
  destruct t as [|c t]; [contradiction | reflexivity].
Qed.

Lemma matchHash_head (c : ascii) (s : string) :
  c <> "#"%char -> processMarkdown.matchHash (String c s) = None.
Proof.
  intros Hc.
  destruct c as [[] [] [] [] [] [] [] []]; try reflexivity.
  contradiction Hc. reflexivity.
Qed.

Lemma matchHash_sound (s t : string) :
  processMarkdown.matchHash s = Some t ->
  exists post, s = "# " +++ t +++ nl +++ post
               /\ t <> "" /\ allOf (isNot LF) t = true.
Proof.
  destruct s as [|c s]; [discriminate|].
  destruct (Ascii.eqb_spec c "#"%char) as [->|Hc];
    [|now rewrite (matchHash_head s Hc)].
  destruct s as [|d s]; [discriminate|].
  destruct (Ascii.eqb_spec d " "%char) as [->|Hd].
  - cbn [processMarkdown.matchHash].
    destruct (upToLF_split s) as (Hs & Hline & Hrest).
    destruct (processMarkdown.upToLF s) as [line rest]. cbn [fst snd] in *.
    destruct line as [|a line]; [discriminate|].
    destruct rest as [|b rest]; [discriminate|].
    intros H. assert (Ht : t = String a line) by congruence. subst t.
    destruct Hrest as [Hrest|[r Hrest]]; [discriminate|].
    exists r. repeat split; [|discriminate | exact Hline].
    cbn [String.append]. rewrite Hs, Hrest. reflexivity.
  - intros H. exfalso. revert H.
    destruct d as [[] [] [] [] [] [] [] []]; try discriminate.
    contradiction Hd. reflexivity.
Qed.

Lemma matchHere_sound (s t : string) :
  processMarkdown.matchHere s = Some t ->
  exists pre post, s = pre +++ "# " +++ t +++ nl +++ post
                   /\ t <> "" /\ allOf (isNot LF) t = true.
Proof.
  unfold processMarkdown.matchHere.
  destruct s as [|c s].
  - intros H. apply matchHash_sound in H. destruct H as (post & H & _). discriminate.
  - destruct (Ascii.eqb_spec c LF) as [->|Hc].
    + destruct (processMarkdown.matchHash s) as [t'|] eqn:E.
      * intros H. assert (t' = t) by congruence. subst t'.
        apply matchHash_sound in E. destruct E as (post & Hs & Hne & Ht).
        exists nl, post. rewrite Hs. auto.
      * intros H. apply matchHash_sound in H. destruct H as (post & Hs & Hne & Ht).
        exists "", post. auto.
    + intros H. apply matchHash_sound in H. destruct H as (post & Hs & Hne & Ht).
      exists "", post. auto.
Qed.

Lemma matchTitle_sound (content t : string) :
  processMarkdown.matchTitle content = Some t -> titleLine content t.
Proof.
  induction content as [|c content IH]; cbn [processMarkdown.matchTitle].
  - destruct (processMarkdown.matchHere "") as [t'|] eqn:E; [|discriminate].
    intros H. assert (t' = t) by congruence. subst t'.
    now apply matchHere_sound.
  - destruct (processMarkdown.matchHere (String c content)) as [t'|] eqn:E.
    + intros H. assert (t' = t) by congruence. subst t'.
      now apply matchHere_sound.
    + intros H. destruct (IH H) as (pre & post & Hs & Hne & Ht).
      exists (String c pre), post. rewrite Hs. auto.
Qed.

Lemma matchTitle_at_start (t post : string) :
  t <> "" -> allOf (isNot LF) t = true ->
  processMarkdown.matchTitle ("# " +++ t +++ nl +++ post) = Some t.
Proof.
  intros Hne Ht.
  pose proof (matchHash_complete post Hne Ht) as H.
  cbn [String.append] in *.
  cbn [processMarkdown.matchTitle processMarkdown.matchHere].
  change (Ascii.eqb "#" LF) with false. cbv iota.
  now rewrite H.
Qed.

Lemma matchTitle_complete (pre t post : string) :
  t <> "" -> allOf (isNot LF) t = true ->
  processMarkdown.matchTitle (pre +++ "# " +++ t +++ nl +++ post) <> None.
Proof.
  intros Hne Ht. induction pre as [|c pre IH].
  - change ("" +++ "# " +++ t +++ nl +++ post) with ("# " +++ t +++ nl +++ post).
    rewrite (matchTitle_at_start post Hne Ht). discriminate.
  - set (body := "# " +++ t +++ nl +++ post) in *.
    cbn [String.append processMarkdown.matchTitle].
    destruct (processMarkdown.matchHere (String c (pre +++ body)));
      [discriminate | exact IH].
Qed.

(** X14.  [processMarkdown] throws exactly when the text that remark returns
    holds nowhere the two characters [# ] followed by at least one character
    other than a line feed and then a line feed; when it does not throw, the
    title it takes is such a run, wherever in a line the [# ] stands. *)
Theorem X14_processMarkdown_throws_without_title_line (content : string) :
  (processMarkdown.processMarkdown content = Throw
   <-> ~ exists t, titleLine content t)
  /\ (forall t, processMarkdown.matchTitle content = Some t -> titleLine content t).
Proof.
  split; [|intros t; apply matchTitle_sound].
  unfold processMarkdown.processMarkdown.
  destruct (processMarkdown.matchTitle content) as [t|] eqn:E.
  - split; [discriminate|].
    intros H. exfalso. apply H. exists t. now apply matchTitle_sound.
  - split; [|reflexivity].
    intros _ (t & pre & post & Hs & Hne & Ht).
    apply (@matchTitle_complete pre t post Hne Ht). now rewrite <- Hs.
Qed.

(** X14 on a text whose only heading has depth 2: the title is read from
    the second [#] on. *)
Lemma X14_witness : titleLine ("## Foo" +++ nl +++ "Text." +++ nl) "Foo".
Proof.
  exact (proj2 (X14_processMarkdown_throws_without_title_line
                  ("## Foo" +++ nl +++ "Text." +++ nl))
           "Foo" eq_refl).
Defined.

Lemma isNot_ne (x c : ascii) : isNot x c = true -> c <> x.
Proof.
  unfold isNot. destruct (Ascii.eqb_spec c x); [discriminate | auto].
Qed.

Lemma matchTitle_first_line (pre t post : string) :
  allOf (isNot "#") pre = true ->
  t <> "" -> allOf (isNot LF) t = true ->
  processMarkdown.matchTitle (pre +++ "# " +++ t +++ nl +++ post) = Some t.
Proof.
  intros Hpre Hne Ht. induction pre as [|c pre IH].
  - exact (matchTitle_at_start post Hne Ht).
  - cbn [allOf] in Hpre. apply andb_true_iff in Hpre. destruct Hpre as [Hc Hpre].
    apply isNot_ne in Hc. specialize (IH Hpre).
    pose proof (matchHash_complete post Hne Ht) as Hbody.
    set (body := "# " +++ t +++ nl +++ post) in *.
    cbn [String.append processMarkdown.matchTitle processMarkdown.matchHere].
    rewrite (matchHash_head _ Hc).
    destruct (Ascii.eqb c LF).
    + destruct (processMarkdown.matchHash (pre +++ body)) as [t'|] eqn:E;
        [|exact IH].
      destruct pre as [|d pre].
      * cbn [String.append] in E. rewrite Hbody in E. now symmetry.
      * cbn [allOf] in Hpre. apply andb_true_iff in Hpre. destruct Hpre as [Hd _].
        apply isNot_ne in Hd. cbn [String.append] in E.
        rewrite (matchHash_head _ Hd) in E. discriminate.
    + exact IH.
Qed.

(** X15.  When the text in front of the first [# ] holds no [#] at all, the
    title is the rest of that line; so for a document that begins, after
    any text without [#], with a heading of depth 1, the title is the text
    of the heading. *)
Theorem X15_title_is_the_first_hash_line (pre t post : string) :
  allOf (isNot "#") pre = true ->
  t <> "" ->
  allOf (isNot LF) t = true ->
  processMarkdown.matchTitle (pre +++ "# " +++ t +++ nl +++ post) = Some t.
Proof. apply matchTitle_first_line. Qed.

(** X15 on a document with a comment line in front of the heading. *)
Lemma X15_witness :
  processMarkdown.matchTitle
    ("<!-- generated -->" +++ nl +++ "# " +++ "Rules" +++ nl +++ "## List" +++ nl)
  = Some "Rules".
Proof.
  apply (@X15_title_is_the_first_hash_line
           ("<!-- generated -->" +++ nl) "Rules" ("## List" +++ nl)).
  - reflexivity.
  - discriminate.
  - reflexivity.
Defined.

(** X16.  From the text to the front matter: when the first [#] of the text
    starts the line [# t], and [t] is "Stylelint" or is not the name of a
    property that objects inherit, the result is the text with the front
    matter in front of it: title and label "Home" and the slug [/] for
    "Stylelint", title and label [t] and no slug otherwise. *)
Theorem X16_front_matter_of_a_document (pre t post : string) :
  allOf (isNot "#") pre = true ->
  t <> "" ->
  allOf (isNot LF) t = true ->
  t = "Stylelint" \/ processMarkdown.assoc t processMarkdown.Object_prototype = None ->
  processMarkdown.processMarkdown (pre +++ "# " +++ t +++ nl +++ post)
  = Return
      ((if String.eqb t "Stylelint"
        then "---" +++ nl +++ "title: Home" +++ nl +++ "sidebar_label: Home" +++ nl
             +++ "slug: /" +++ nl +++ "---"
        else "---" +++ nl +++ "title: " +++ t +++ nl
             +++ "sidebar_label: " +++ t +++ nl +++ "---")
       +++ nl +++ nl +++ pre +++ "# " +++ t +++ nl +++ post).
Proof.
  intros Hpre Hne Ht Hordinary.
  pose proof (matchTitle_first_line pre post Hpre Hne Ht) as Hmatch.
  exact (processMarkdown_frontMatter _ Hmatch Hordinary).
Qed.

(** X16 on the home page and on a page of the user guide. *)
Lemma X16_witness :
  processMarkdown.processMarkdown ("" +++ "# " +++ "Stylelint" +++ nl +++ "Text." +++ nl)
  = Return
      ("---" +++ nl +++ "title: Home" +++ nl +++ "sidebar_label: Home" +++ nl
       +++ "slug: /" +++ nl +++ "---" +++ nl +++ nl
       +++ "# Stylelint" +++ nl +++ "Text." +++ nl).
Proof.
  assert (Hne : "Stylelint" <> "") by discriminate.
  exact (@X16_front_matter_of_a_document "" "Stylelint" ("Text." +++ nl)
           eq_refl Hne eq_refl (or_introl eq_refl)).
Defined.

(** ** The four passes on the page of a rule *)

Section RewrittenPage.

Variable rewriter : option string -> option string.

Lemma children_rewritten (n : Node) :
  children (rewritten rewriter n)
  = option_map (map (rewritten rewriter)) (children n).
Proof. destruct n as [t [cs|] v u q]; reflexivity. Qed.

Lemma value_rewritten (n : Node) : value (rewritten rewriter n) = value n.
Proof. destruct n as [t cs v u q]; reflexivity. Qed.

Lemma isValid_rewritten (n : Node) :
  wrapProblemExample.isValid (rewritten rewriter n) = wrapProblemExample.isValid n.
Proof.
  unfold wrapProblemExample.isValid. rewrite children_rewritten.
  destruct (children n) as [cs|]; [|reflexivity]. cbn [option_map].
  rewrite nth_error_map.
  destruct (nth_error cs 1) as [second|]; [|reflexivity]. cbn [option_map].
  rewrite children_rewritten.
  destruct (children second) as [gs|]; [|reflexivity]. cbn [option_map].
  rewrite nth_error_map.
  destruct (nth_error gs 0) as [g|]; [|reflexivity]. cbn [option_map].
  now rewrite value_rewritten.
Qed.

Lemma contains_rewritten_list (test : Node -> bool) (l : list Node) :
  (forall m, test (rewritten rewriter m) = test m) ->
  existsb (contains test) (map (rewritten rewriter) l) = existsb (contains test) l.
Proof.
  intros Htest. induction l as [|c l IH]; [reflexivity|].
  cbn [map existsb]. now rewrite IH, contains_rewritten.
Qed.

End RewrittenPage.

Lemma contains_marker (test : Node -> bool) (v : string) :
  test (mdast.html v) = false -> contains test (mdast.html v) = false.
Proof. intros H. cbn [contains mdast.html mdast.literal]. now rewrite orb_false_r. Qed.

Lemma wrapped_page_has_none
    (test : Node -> bool) (before wrapped tail : list Node) (trigger : Node) (valid : bool) :
  test (mdast.root (before ++ trigger :: wrapped ++ tail)) = false ->
  (forall l, test (mdast.root l) = test (mdast.root [])) ->
  (forall v, test (mdast.html v) = false) ->
  existsb (contains test) (before ++ trigger :: wrapped ++ tail) = false ->
  contains test
    (mdast.root
       (before
        ++ [trigger; wrapProblemExample.wrapperStart valid]
        ++ wrapped ++ [wrapProblemExample.wrapperEnd] ++ tail)) = false.
Proof.
  intros Hroot Hany Hmarker Hnone.
  rewrite existsb_app in Hnone. apply orb_false_iff in Hnone.
  destruct Hnone as [Hbefore Hnone]. cbn [existsb] in Hnone.
  apply orb_false_iff in Hnone. destruct Hnone as [Htrigger Hnone].
  rewrite existsb_app in Hnone. apply orb_false_iff in Hnone.
  destruct Hnone as [Hwrapped Htail].
  cbn [contains mdast.root mdast.parent].
  change (test (mdast.root
                  (before ++ [trigger; wrapProblemExample.wrapperStart valid]
                   ++ wrapped ++ [wrapProblemExample.wrapperEnd] ++ tail))
          || existsb (contains test)
               (before ++ [trigger; wrapProblemExample.wrapperStart valid]
                ++ wrapped ++ [wrapProblemExample.wrapperEnd] ++ tail) = false).
  rewrite Hany, <- (Hany (before ++ trigger :: wrapped ++ tail)), Hroot.
  rewrite existsb_app. cbn [app existsb]. rewrite existsb_app. cbn [app existsb].
  unfold wrapProblemExample.wrapperStart, wrapProblemExample.wrapperEnd.
  rewrite !contains_marker by apply Hmarker.
  now rewrite Hbefore, Htrigger, Hwrapped, Htail.
Qed.

Lemma size_wrapped_page
    (before wrapped tail : list Node) (trigger : Node) (valid : bool) :
  size (mdast.root
          (before
           ++ [trigger; wrapProblemExample.wrapperStart valid]
           ++ wrapped ++ [wrapProblemExample.wrapperEnd] ++ tail))
  = 2 + size (mdast.root (before ++ trigger :: wrapped ++ tail)).
Proof.
  cbn [size mdast.root mdast.parent].
  repeat first [ rewrite map_app | rewrite list_sum_app | rewrite list_sum_cons
               | progress cbn [app map] ].
  change (size (wrapProblemExample.wrapperStart valid)) with 1.
  change (size wrapProblemExample.wrapperEnd) with 1.
  change (list_sum []) with 0.
  lia.
Qed.

(** X17.  The four passes on a document whose top-level blocks hold one
    trigger and that holds no blockquote and no symbol: the result is the
    document with the [url] of its links rewritten and with the two markers
    around the blocks between the trigger and the next heading (or the end).
    The class of the opening marker is the one read from the trigger before
    the links were rewritten, and the later two passes leave the markers as
    they are. *)
Theorem X17_passes_on_a_rule_page
    (rewriter : option string -> option string)
    (before after : list Node) (trigger : Node) (valid : bool) (fuel : nat) :
  wrapProblemExample.isTrigger trigger = true ->
  wrapProblemExample.isValid trigger = Return valid ->
  existsb (contains wrapProblemExample.isTrigger) (before ++ after) = false ->
  (forall cs, children trigger = Some cs ->
              existsb (contains wrapProblemExample.isTrigger) cs = false) ->
  contains convertToAdmonitions.test (mdast.root (before ++ trigger :: after)) = false ->
  contains makeRuleSymbolsAccessbile.test (mdast.root (before ++ trigger :: after)) = false ->
  3 * size (mdast.root (before ++ trigger :: after)) + 8 <= fuel ->
  exists wrapped tail,
    map (rewritten rewriter) after = wrapped ++ tail
    /\ forallb (fun c => negb (wrapProblemExample.boundary c)) wrapped = true
    /\ (tail = [] \/ exists b tail', tail = b :: tail' /\ wrapProblemExample.boundary b = true)
    /\ pipeline.run rewriter fuel (mdast.root (before ++ trigger :: after))
       = Return
           (mdast.root
              (map (rewritten rewriter) before
               ++ [rewritten rewriter trigger; wrapProblemExample.wrapperStart valid]
               ++ wrapped
               ++ [wrapProblemExample.wrapperEnd]
               ++ tail)).
Proof.
  intros Htrigger Hvalid Hnone Hinside Hquote Hsymbol Hfuel.
  set (R := rewritten rewriter).
  assert (Hpage : rewritten rewriter (mdast.root (before ++ trigger :: after))
                  = mdast.root (map R before ++ R trigger :: map R after)).
  { cbn [rewritten mdast.root mdast.parent]. now rewrite map_app. }
  assert (Hsize : size (mdast.root (map R before ++ R trigger :: map R after))
                  = size (mdast.root (before ++ trigger :: after))).
  { rewrite <- Hpage. apply size_rewritten. }
  assert (HisT : forall m, wrapProblemExample.isTrigger (R m) = wrapProblemExample.isTrigger m)
    by (intros m; apply isTrigger_rewritten).
  assert (HisQ : forall m, convertToAdmonitions.test (R m) = convertToAdmonitions.test m)
    by (intros [t cs v u q]; reflexivity).
  assert (HisS : forall m, makeRuleSymbolsAccessbile.test (R m) = makeRuleSymbolsAccessbile.test m)
    by (intros [t cs v u q]; reflexivity).
  destruct (@wrapProblemExample_in_document
              (map R before) (map R after) (R trigger) valid fuel)
    as (wrapped & tail & Hsplit & Hwrapped & Htail & Hpass).
  - now rewrite HisT.
  - subst R. now rewrite isValid_rewritten.
  - rewrite <- map_app. subst R. now rewrite contains_rewritten_list.
  - intros cs Hcs. subst R. rewrite children_rewritten in Hcs.
    destruct (children trigger) as [l|] eqn:El; [|discriminate].
    cbn [option_map] in Hcs. assert (cs = map (rewritten rewriter) l) by congruence.
    subst cs. rewrite contains_rewritten_list by exact HisT. now apply Hinside.
  - rewrite Hsize. exact Hfuel.
  - exists wrapped, tail. repeat split; try assumption.
    unfold pipeline.run.
    rewrite rewriteLink_transform by lia. cbn [bind].
    rewrite Hpage, Hpass. cbn [bind].
    assert (Hbig : 2 * size (mdast.root
                               (map R before
                                ++ [R trigger; wrapProblemExample.wrapperStart valid]
                                ++ wrapped ++ [wrapProblemExample.wrapperEnd] ++ tail))
                   <= fuel).
    { rewrite size_wrapped_page, <- Hsplit, Hsize. lia. }
    assert (Hq : contains convertToAdmonitions.test
                   (mdast.root (map R before ++ R trigger :: wrapped ++ tail)) = false).
    { rewrite <- Hsplit, <- Hpage. subst R.
      now rewrite contains_rewritten by exact HisQ. }
    assert (Hs : contains makeRuleSymbolsAccessbile.test
                   (mdast.root (map R before ++ R trigger :: wrapped ++ tail)) = false).
    { rewrite <- Hsplit, <- Hpage. subst R.
      now rewrite contains_rewritten by exact HisS. }
    cbn [contains mdast.root mdast.parent] in Hq, Hs.
    apply orb_false_iff in Hq. apply orb_false_iff in Hs.
    destruct Hq as [Hq1 Hq2]. destruct Hs as [Hs1 Hs2].
    unfold convertToAdmonitions.transform.
    rewrite visit_no_match; [cbn [bind] | | exact Hbig].
    2: { apply wrapped_page_has_none; try assumption; reflexivity. }
    unfold makeRuleSymbolsAccessbile.transform.
    apply visit_no_match; [|exact Hbig].
    apply wrapped_page_has_none; try assumption; reflexivity.
Qed.

(** X17 on a rule's page with a link in front of the trigger. *)
Lemma X17_witness :
  exists wrapped tail,
    map (rewritten readme_to_index)
      [code_example; mdast.heading "2" [mdast.text "Options"]]
    = wrapped ++ tail
    /\ pipeline.run readme_to_index 60
         (mdast.root
            ([mdast.paragraph [mdast.link "../README.md" [mdast.text "rules"]]]
             ++ trigger_not
                :: [code_example; mdast.heading "2" [mdast.text "Options"]]))
       = Return
           (mdast.root
              (map (rewritten readme_to_index)
                 [mdast.paragraph [mdast.link "../README.md" [mdast.text "rules"]]]
               ++ [rewritten readme_to_index trigger_not;
                   wrapProblemExample.wrapperStart true]
               ++ wrapped
               ++ [wrapProblemExample.wrapperEnd]
               ++ tail)).
Proof.
  destruct (@X17_passes_on_a_rule_page readme_to_index
              [mdast.paragraph [mdast.link "../README.md" [mdast.text "rules"]]]
              [code_example; mdast.heading "2" [mdast.text "Options"]]
              trigger_not true 60 eq_refl eq_refl eq_refl)
    as (wrapped & tail & Hsplit & _ & _ & Hpass).
  - intros cs Hcs.
    assert (Hc : cs = [ mdast.text "The following patterns are ";
                        mdast.emphasis [mdast.text "not"];
                        mdast.text " considered problems:" ])
      by (cbn in Hcs; congruence).
    rewrite Hc. reflexivity.
  - reflexivity.
  - reflexivity.
  - vm_compute. lia.
  - exists wrapped, tail. split; [exact Hsplit | exact Hpass].
Defined.

(** ** [convertToAdmonitions]: which blockquotes are replaced *)

Lemma gfmToAdmonitions_Some (key : option string) (admType : string) :
  convertToAdmonitions.gfmToAdmonitions key = Some admType ->
  key = Some "Note" \/ key = Some "Warning".
Proof.
  destruct key as [k|]; [|discriminate]. cbn [convertToAdmonitions.gfmToAdmonitions].
  destruct (String.eqb_spec k "Note") as [->|_]; [now left|].
  destruct (String.eqb_spec k "Warning") as [->|_]; [now right | discriminate].
Qed.

(** X18.  The converse of the replacement: whenever the visitor returns, it
    has either left the blockquote and its siblings as they were, or the
    blockquote starts with a paragraph that starts with a strong run whose
    first child has the value "Note" or "Warning", in this spelling.  No
    other label, and no label in another place, makes an admonition. *)
Theorem X18_only_note_and_warning_are_replaced
    (blockquote : Node) (ctx : option (nat * list Node)) (r : Visited) :
  convertToAdmonitions.visitor blockquote ctx = Return r ->
  r = in_place blockquote ctx
  \/ exists paragraph others strong restChildren text more label,
       children blockquote = Some (paragraph :: others)
       /\ type paragraph = "paragraph"
       /\ children paragraph = Some (strong :: restChildren)
       /\ type strong = "strong"
       /\ children strong = Some (text :: more)
       /\ value text = Some label
       /\ (label = "Note" \/ label = "Warning").
Proof.
  unfold convertToAdmonitions.visitor.
  destruct (children blockquote) as [[|paragraph others]|] eqn:Hb; try discriminate.
  destruct (String.eqb_spec (type paragraph) "paragraph") as [Hp|Hp];
    cbn [negb]; [|intros H; left; congruence].
  destruct (children paragraph) as [[|strong restChildren]|] eqn:Hpc;
    try discriminate.
  destruct (String.eqb_spec (type strong) "strong") as [Hs|Hs];
    cbn [negb]; [|intros H; left; congruence].
  destruct (children strong) as [inner|] eqn:Hsc; [|discriminate].
  destruct (convertToAdmonitions.gfmToAdmonitions
              match inner with [] => None | text :: _ => value text end)
    as [admType|] eqn:Hget; [|intros H; left; congruence].
  intros _. right.
  apply gfmToAdmonitions_Some in Hget.
  destruct inner as [|text more]; [destruct Hget; discriminate|].
  assert (Hlabel : exists label, value text = Some label
                                 /\ (label = "Note" \/ label = "Warning")).
  { destruct Hget as [H|H]; rewrite H; eauto. }
  destruct Hlabel as (label & Hv & Hl).
  exists paragraph, others, strong, restChildren, text, more, label.
  repeat split; assumption || reflexivity.
Qed.

(** X18 on a blockquote with the label "Tip": it is left as it was. *)
Lemma X18_witness :
  let quote :=
    mdast.blockquote
      [mdast.paragraph [mdast.strong [mdast.text "Tip"]; mdast.text " use it."]] in
  in_place quote (Some (0, [quote])) = in_place quote (Some (0, [quote]))
  \/ exists paragraph others strong restChildren text more label,
       children quote = Some (paragraph :: others)
       /\ type paragraph = "paragraph"
       /\ children paragraph = Some (strong :: restChildren)
       /\ type strong = "strong"
       /\ children strong = Some (text :: more)
       /\ value text = Some label
       /\ (label = "Note" \/ label = "Warning").
Proof.
  intros quote.
  exact (@X18_only_note_and_warning_are_replaced
           quote (Some (0, [quote])) (in_place quote (Some (0, [quote]))) eq_refl).
Defined.

(** ** The whole pass of [makeRuleSymbolsAccessbile] *)








(** ** The whole pass of [convertToAdmonitions] *)

Lemma admonitionParts_shape (c : Node) (label : string) (restChildren : list Node) :
  admonitionParts c = Some (label, restChildren) ->
  exists paragraph others strong text more,
    type c = "blockquote"
    /\ children c = Some (paragraph :: others)
    /\ type paragraph = "paragraph"
    /\ children paragraph = Some (strong :: restChildren)
    /\ type strong = "strong"
    /\ children strong = Some (text :: more)
    /\ value text = Some label
    /\ (label = "Note" \/ label = "Warning").
Proof.
  unfold admonitionParts.
  destruct (String.eqb_spec (type c) "blockquote") as [Hc|]; [|discriminate].
  destruct (children c) as [[|paragraph others]|] eqn:Hcs; try discriminate.
  destruct (String.eqb_spec (type paragraph) "paragraph") as [Hp|]; [|discriminate].
  destruct (children paragraph) as [[|strong rest]|] eqn:Hpc; try discriminate.
  destruct (String.eqb_spec (type strong) "strong") as [Hs|]; [|discriminate].
  destruct (children strong) as [[|text more]|] eqn:Hsc; try discriminate.
  destruct (value text) as [l|] eqn:Hv; [|discriminate].
  destruct (String.eqb l "Note" || String.eqb l "Warning") eqn:Hl; [|discriminate].
  intros H.
  assert (Hlabel : l = label) by congruence.
  assert (Hrest : rest = restChildren) by congruence.
  subst l rest.
  exists paragraph, others, strong, text, more.
  repeat split; try assumption; try reflexivity.
  apply orb_true_iff in Hl.
  destruct Hl as [Hl|Hl]; apply String.eqb_eq in Hl; auto.
Qed.

Lemma admonitionParts_blockquote (c : Node) :
  convertToAdmonitions.test c = false -> admonitionParts c = None.
Proof.
  unfold convertToAdmonitions.test, admonitionParts. now intros ->.
Qed.

Lemma admonitionParts_plain (c : Node) :
  plainQuote c = true -> admonitionParts c = None.
Proof.
  intros Hplain.
  destruct (admonitionParts c) as [[label restChildren]|] eqn:Hparts; [|reflexivity].
  destruct (admonitionParts_shape c Hparts)
    as (paragraph & others & strong & text & more
        & _ & Hcs & Hp & Hpc & Hs & Hsc & Hv & Hlabel).
  unfold plainQuote in Hplain.
  rewrite Hcs, Hp, Hpc, Hs, Hsc, Hv in Hplain.
  destruct Hlabel as [-> | ->]; discriminate.
Qed.

Lemma readable_rest (c : Node) (label : string) (restChildren : list Node) :
  readable c = true ->
  admonitionParts c = Some (label, restChildren) ->
  existsb (contains convertToAdmonitions.test) restChildren = false.
Proof.
  intros Hread Hparts. unfold readable in Hread. rewrite Hparts in Hread.
  destruct (admonitionParts_shape c Hparts) as (p & o & s & x & m & Hc & _).
  assert (Htest : convertToAdmonitions.test c = true)
    by (unfold convertToAdmonitions.test; now rewrite Hc).
  assert (Hplain : plainQuote c = false).
  { destruct (plainQuote c) eqn:E; [|reflexivity].
    apply admonitionParts_plain in E. congruence. }
  rewrite Htest, Hplain in Hread. cbn [negb orb] in Hread.
  now apply negb_true_iff in Hread.
Qed.

Lemma readable_plain (c : Node) :
  readable c = true ->
  admonitionParts c = None ->
  forall ctx,
    call convertToAdmonitions.test convertToAdmonitions.visitor c ctx
    = Return (in_place c ctx).
Proof.
  intros Hread Hparts ctx. unfold call.
  destruct (convertToAdmonitions.test c) eqn:Htest; [|reflexivity].
  apply plainQuote_passes.
  unfold readable in Hread. rewrite Hparts, Htest in Hread.
  cbn [negb orb] in Hread. now rewrite orb_false_r in Hread.
Qed.

Lemma threeParagraphs_trimFirst (label : string) (restChildren : list Node) :
  threeParagraphs label restChildren
  = [ mdast.paragraph
        [mdast.text
           (":::" +++ (if String.eqb label "Note" then "note" else "caution")
            +++ " " +++ label)];
      mdast.paragraph (convertToAdmonitions.trimFirst restChildren);
      mdast.paragraph [mdast.text ":::"] ].
Proof.
  unfold threeParagraphs, admonitionKind.
  destruct restChildren as [|first later]; [reflexivity|].
  now rewrite trimFirst_cons.
Qed.

Lemma readable_set_value (m : Node) (w : option string) :
  everywhere readable (set_value m w) = everywhere readable m.
Proof. destruct m as [t [cs|] v u q]; reflexivity. Qed.

Lemma readable_trimFirst (restChildren : list Node) :
  forallb (everywhere readable) (convertToAdmonitions.trimFirst restChildren)
  = forallb (everywhere readable) restChildren.
Proof.
  destruct restChildren as [|first later]; [reflexivity|].
  rewrite trimFirst_cons. cbn [forallb]. now rewrite readable_set_value.
Qed.

Lemma everywhere_children (P : Node -> bool) (c : Node) (l : list Node) :
  everywhere P c = true -> children c = Some l ->
  P c = true /\ forallb (everywhere P) l = true.
Proof.
  destruct c as [t cs v u q]. cbn [everywhere children].
  intros H ->. now apply andb_true_iff in H.
Qed.

Lemma everywhere_here (P : Node -> bool) (c : Node) :
  everywhere P c = true -> P c = true.
Proof.
  destruct c as [t [cs|] v u q]; cbn [everywhere]; intros H;
    apply andb_true_iff in H; tauto.
Qed.

Lemma converted_children (c : Node) (l : list Node) :
  children c = Some l ->
  converted c = set_children c (flat_map convertedChild l).
Proof. destruct c as [t cs v u q]. cbn [children]. intros ->. reflexivity. Qed.

Lemma converted_leaf (c : Node) : children c = None -> converted c = c.
Proof. destruct c as [t cs v u q]. cbn [children]. intros ->. reflexivity. Qed.

Lemma admonition_walk_all (todo : list Node) :
  Forall admonition_walked todo ->
  forallb readable todo = true ->
  forall fuel p done,
    3 * list_sum (map size todo) + 2 <= fuel ->
    children p = Some (done ++ todo) ->
    visit_all convertToAdmonitions.test convertToAdmonitions.visitor
      fuel p (length done)
    = Return (set_children p (done ++ flat_map convertedChild todo)).
Proof.
  induction 1 as [|c todo Hc Htodo IH]; intros Hread fuel p done Hfuel Hp.
  - destruct fuel as [|f]; [lia|].
    rewrite visit_all_step, Hp.
    replace (nth_error (done ++ []) (length done)) with (@None Node).
    2: { symmetry. apply nth_error_None. rewrite app_nil_r. lia. }
    cbn [flat_map]. now rewrite set_children_same.
  - cbn [forallb] in Hread. apply andb_true_iff in Hread.
    destruct Hread as [Hreadc Hread]. specialize (IH Hread).
    cbn [map] in Hfuel. rewrite list_sum_cons in Hfuel.
    pose proof (size_pos c) as Hpos.
    destruct fuel as [|f]; [lia|].
    rewrite visit_all_step, Hp, nth_error_middle.
    rewrite Hc by lia. cbn [bind flat_map].
    destruct (admonitionParts c) as [[label restChildren]|] eqn:Hparts.
    + (* the three paragraphs: the walk goes on at the content paragraph *)
      assert (Hchild : convertedChild c = threeParagraphs label restChildren)
        by (unfold convertedChild; now rewrite Hparts).
      rewrite !Hchild.
      pose proof (readable_rest c Hreadc Hparts) as Hrest.
      destruct (admonitionParts_shape c Hparts)
        as (paragraph & others & strong & text & more
            & _ & Hcs & _ & Hpc & _ & Hsc & _ & _).
      assert (Hsize : 4 + list_sum (map size restChildren) <= size c).
      { rewrite (size_parent c Hcs). cbn [map]. rewrite list_sum_cons.
        rewrite (size_parent paragraph Hpc). cbn [map]. rewrite list_sum_cons.
        rewrite (size_parent strong Hsc). cbn [map]. rewrite list_sum_cons.
        pose proof (size_pos text). lia. }
      rewrite threeParagraphs_trimFirst.
      set (opener := mdast.paragraph
                       [mdast.text
                          (":::" +++ (if String.eqb label "Note" then "note" else "caution")
                           +++ " " +++ label)]).
      set (content := mdast.paragraph (convertToAdmonitions.trimFirst restChildren)).
      set (closer := mdast.paragraph [mdast.text ":::"]).
      set (p' := set_children p (done ++ [opener; content; closer] ++ todo)).
      replace (S (length done)) with (length (done ++ [opener]))
        by (rewrite length_app; simpl; lia).
      replace f with (length [content; closer] + (f - 2)) by (simpl; lia).
      rewrite (@walk_prefix convertToAdmonitions.test convertToAdmonitions.visitor
                 [content; closer])
        with (rest := todo).
      2: { cbn [forallb]. subst content closer.
           cbn [mdast.paragraph mdast.parent contains].
           change (convertToAdmonitions.test
                     (mkNode "paragraph"
                        (Some (convertToAdmonitions.trimFirst restChildren)) None None []))
             with false.
           now rewrite trimFirst_no_blockquote, Hrest. }
      2: { subst content closer.
           cbn [map mdast.paragraph mdast.parent mdast.text mdast.literal size].
           rewrite !list_sum_cons, trimFirst_size. change (list_sum []) with 0. lia. }
      2: { subst p'. cbn [set_children children]. now rewrite <- app_assoc. }
      replace (length (done ++ [opener]) + length [content; closer])
        with (length (done ++ [opener; content; closer]))
        by (rewrite !length_app; simpl; lia).
      rewrite (IH (f - 2) p' (done ++ [opener; content; closer])).
      * subst p'. rewrite set_children_twice. now rewrite <- app_assoc.
      * lia.
      * subst p'. cbn [set_children children]. now rewrite <- app_assoc.
    + assert (Hchild : convertedChild c = [converted c])
        by (unfold convertedChild; now rewrite Hparts).
      rewrite !Hchild.
      replace (S (length done)) with (length (done ++ [converted c]))
        by (rewrite length_app; simpl; lia).
      rewrite (IH f (set_children p (done ++ [converted c] ++ todo)) (done ++ [converted c])).
      * rewrite set_children_twice. now rewrite <- app_assoc.
      * lia.
      * cbn [set_children children]. now rewrite <- app_assoc.
Qed.

Lemma admonition_walk_one (n : nat) (c : Node) :
  size c <= n -> everywhere readable c = true -> admonition_walked c.
Proof.
  revert c. induction n as [|n IH]; intros c Hsize Hall.
  { pose proof (size_pos c). lia. }
  intros fuel done behind Hfuel.
  pose proof (size_pos c) as Hpos.
  destruct fuel as [|f]; [lia|].
  assert (Hlist : forall l p,
            list_sum (map size l) <= n ->
            forallb (everywhere readable) l = true ->
            children p = Some l ->
            3 * list_sum (map size l) + 2 <= f ->
            visit_all convertToAdmonitions.test convertToAdmonitions.visitor f p 0
            = Return (set_children p (flat_map convertedChild l))).
  { intros l p Hl Hreadl Hp Hf.
    apply (@admonition_walk_all l) with (done := @nil Node); try assumption.
    - apply Forall_forall. intros x Hin.
      rewrite forallb_forall in Hreadl.
      apply IH; [|apply Hreadl, Hin].
      clear - Hin Hl. induction l as [|y l IHl]; [contradiction|].
      cbn [map] in Hl. rewrite list_sum_cons in Hl.
      destruct Hin as [->|Hin]; [lia | apply IHl; [lia | exact Hin]].
    - rewrite forallb_forall in Hreadl |- *.
      intros x Hin. apply everywhere_here, Hreadl, Hin. }
  pose proof (everywhere_here readable c Hall) as Hread.
  rewrite visit_one_step.
  destruct (admonitionParts c) as [[label restChildren]|] eqn:Hparts.
  - (* an admonition *)
    assert (Hchild : convertedChild c = threeParagraphs label restChildren)
      by (unfold convertedChild; now rewrite Hparts).
    rewrite Hchild.
    pose proof (readable_rest c Hread Hparts) as Hrest.
    destruct (admonitionParts_shape c Hparts)
      as (paragraph & others & strong & text & more
          & Hc & Hcs & Hp & Hpc & Hs & Hsc & Hv & Hlabel).
    destruct (everywhere_children readable c Hall Hcs) as [_ Hbelow].
    cbn [forallb] in Hbelow. apply andb_true_iff in Hbelow.
    destruct Hbelow as [Hparagraph Hothers].
    destruct (everywhere_children readable paragraph Hparagraph Hpc) as [_ Hinline].
    cbn [forallb] in Hinline. apply andb_true_iff in Hinline.
    destruct Hinline as [Hstrong Hinline].
    assert (Hsizec : size c = 2 + size strong + list_sum (map size restChildren)
                              + list_sum (map size others)).
    { rewrite (size_parent c Hcs). cbn [map]. rewrite list_sum_cons.
      rewrite (size_parent paragraph Hpc). cbn [map]. rewrite list_sum_cons. lia. }
    unfold call, convertToAdmonitions.test at 1. rewrite Hc.
    cbn [String.eqb Ascii.eqb Bool.eqb].
    rewrite (@admonition_visitor_match c (length done) (done ++ c :: behind)
               paragraph others strong restChildren text more label);
      try assumption.
    2: { rewrite length_app. simpl. lia. }
    cbn [bind v_place v_node v_children].
    rewrite trimFirst_no_blockquote, Hrest.
    set (trimmed := convertToAdmonitions.trimFirst restChildren).
    rewrite (Hlist (set_children paragraph (strong :: trimmed) :: others)).
    + cbn [bind].
      rewrite firstn_app, firstn_all, Nat.sub_diag, app_nil_r.
      replace (skipn (S (length done)) (done ++ c :: behind)) with behind.
      2: { rewrite skipn_app, skipn_all2 by lia.
           replace (S (length done) - length done) with 1 by lia. reflexivity. }
      now rewrite threeParagraphs_trimFirst.
    + cbn [map]. rewrite list_sum_cons.
      rewrite (@size_parent (set_children paragraph (strong :: trimmed)) (strong :: trimmed))
        by reflexivity.
      cbn [map]. rewrite list_sum_cons. subst trimmed. rewrite trimFirst_size. lia.
    + cbn [forallb]. rewrite Hothers, andb_true_r.
      unfold set_children. cbn [everywhere forallb].
      subst trimmed. rewrite readable_trimFirst, Hstrong, Hinline.
      unfold readable, convertToAdmonitions.test. cbn [type]. rewrite Hp. reflexivity.
    + reflexivity.
    + cbn [map]. rewrite list_sum_cons.
      rewrite (@size_parent (set_children paragraph (strong :: trimmed)) (strong :: trimmed))
        by reflexivity.
      cbn [map]. rewrite list_sum_cons. subst trimmed. rewrite trimFirst_size. lia.
  - (* any other node *)
    assert (Hchild : convertedChild c = [converted c])
      by (unfold convertedChild; now rewrite Hparts).
    rewrite Hchild.
    rewrite (readable_plain c Hread Hparts).
    cbn [bind in_place v_place v_node v_children].
    destruct (children c) as [l|] eqn:Hcs.
    + destruct (everywhere_children readable c Hall Hcs) as [_ Hbelow].
      pose proof (size_parent c Hcs) as Hsizec.
      rewrite (Hlist l c) by (try assumption; lia).
      cbn [bind]. rewrite set_nth_app.
      now rewrite (converted_children c Hcs).
    + destruct f as [|f]; [lia|].
      rewrite visit_all_step, Hcs. cbn [bind].
      now rewrite set_nth_app, (converted_leaf c Hcs).
Qed.

(** C4 as the specification has it fails on the pass: a "Warning" blockquote
    that stands inside a "Note" blockquote, behind its first paragraph, is
    an admonition by the shape the claim names, but the pass does not put
    three paragraphs in its place: it goes away with everything that
    follows the first paragraph of the note. *)
Lemma C4_counterexample :
  let warning :=
    mdast.blockquote
      [mdast.paragraph [mdast.strong [mdast.text "Warning"]; mdast.text " Slow."]] in
  let note :=
    mdast.blockquote
      [ mdast.paragraph [mdast.strong [mdast.text "Note"]; mdast.text " Read on."];
        warning ] in
  admonitionParts warning = Some ("Warning", [mdast.text " Slow."])
  /\ convertToAdmonitions.transform 40 (mdast.root [note])
     = Return
         (mdast.root
            [ mdast.paragraph [mdast.text ":::note Note"];
              mdast.paragraph [mdast.text "Read on."];
              mdast.paragraph [mdast.text ":::"] ]).
Proof. split; vm_compute; reflexivity. Qed.

(** C4, amended.  The admonition pass on a whole tree whose root is no
    blockquote and in which the visitor can read every blockquote (it has a
    first child; a first child that is a paragraph has a first child; a
    strong node at that place has a [children] array) and no admonition has
    a blockquote among the children of its paragraph behind the strong
    node.  An admonition is a blockquote whose first child is a paragraph
    whose first child is a strong node whose first child has the value
    "Note" or "Warning".  The pass returns the tree in which every
    admonition that is not inside another one is replaced, in its place
    among the children of its parent, by three paragraphs: the opener with
    the text [:::note Note] or [:::caution Warning], the content paragraph
    with the children of the first paragraph behind the strong node, of
    which the first has lost the white space at the start of its value and
    the others are as they were, and the closer with the text [:::].  What
    else the blockquote held is gone; all other nodes are as they were. *)
Theorem C4_admonition_replaces_the_blockquote (tree : Node) (fuel : nat) :
  (convertToAdmonitions.test tree = false ->
   everywhere readable tree = true ->
   3 * size tree <= fuel ->
   convertToAdmonitions.transform fuel tree = Return (converted tree))
  /\ (forall before blockquote after label restChildren,
        children tree = Some (before ++ blockquote :: after) ->
        admonitionParts blockquote = Some (label, restChildren) ->
        children (converted tree)
        = Some
            (flat_map convertedChild before
             ++ [ mdast.paragraph
                    [mdast.text
                       (":::" +++ (if String.eqb label "Note" then "note" else "caution")
                        +++ " " +++ label)];
                  mdast.paragraph
                    (match restChildren with
                     | [] => []
                     | first :: later =>
                         set_value first (option_map trimStart (value first)) :: later
                     end);
                  mdast.paragraph [mdast.text ":::"] ]
             ++ flat_map convertedChild after)).
Proof.
  split.
  - intros Htest Hall Hfuel.
    unfold convertToAdmonitions.transform, visit, call. rewrite Htest.
    cbn [bind in_place v_node].
    destruct (children tree) as [l|] eqn:Hcs.
    + destruct (everywhere_children readable tree Hall Hcs) as [_ Hbelow].
      pose proof (size_parent tree Hcs) as Hsize.
      rewrite (converted_children tree Hcs).
      apply (@admonition_walk_all l) with (done := @nil Node).
      * apply Forall_forall. intros c Hin.
        rewrite forallb_forall in Hbelow.
        apply (@admonition_walk_one (size c) c (le_n _)), Hbelow, Hin.
      * rewrite forallb_forall in Hbelow |- *.
        intros c Hin. apply everywhere_here, Hbelow, Hin.
      * lia.
      * exact Hcs.
    + pose proof (size_pos tree).
      destruct fuel as [|f]; [lia|].
      rewrite visit_all_step, Hcs. now rewrite (converted_leaf tree Hcs).
  - intros before blockquote after label restChildren Hcs Hparts.
    rewrite (converted_children tree Hcs). cbn [set_children children].
    rewrite flat_map_app. cbn [flat_map].
    unfold convertedChild at 2. rewrite Hparts.
    reflexivity.
Qed.

(** C4 on a document with a note between a heading and a list, a warning
    inside the list item, and a plain quote. *)
Lemma C4_witness :
  convertToAdmonitions.transform 60
    (mdast.root
       [ mdast.heading "2" [mdast.text "Usage"];
         mdast.blockquote
           [ mdast.paragraph
               [ mdast.strong [mdast.text "Note"];
                 mdast.text " Use the ";
                 mdast.inlineCode "fix";
                 mdast.text " option." ] ];
         mdast.parent "listItem"
           [ mdast.blockquote
               [ mdast.paragraph
                   [mdast.strong [mdast.text "Warning"]; mdast.text " Slow."] ] ];
         mdast.blockquote [mdast.paragraph [mdast.text "A quote."]];
         code_example ])
  = Return
      (mdast.root
         [ mdast.heading "2" [mdast.text "Usage"];
           mdast.paragraph [mdast.text ":::note Note"];
           mdast.paragraph
             [ mdast.text "Use the "; mdast.inlineCode "fix"; mdast.text " option." ];
           mdast.paragraph [mdast.text ":::"];
           mdast.parent "listItem"
             [ mdast.paragraph [mdast.text ":::caution Warning"];
               mdast.paragraph [mdast.text "Slow."];
               mdast.paragraph [mdast.text ":::"] ];
           mdast.blockquote [mdast.paragraph [mdast.text "A quote."]];
           code_example ]).
Proof.
  refine (proj1 (C4_admonition_replaces_the_blockquote
                   (mdast.root
                      [ mdast.heading "2" [mdast.text "Usage"];
                        mdast.blockquote
                          [ mdast.paragraph
                              [ mdast.strong [mdast.text "Note"];
                                mdast.text " Use the ";
                                mdast.inlineCode "fix";
                                mdast.text " option." ] ];
                        mdast.parent "listItem"
                          [ mdast.blockquote
                              [ mdast.paragraph
                                  [mdast.strong [mdast.text "Warning"];
                                   mdast.text " Slow."] ] ];
                        mdast.blockquote [mdast.paragraph [mdast.text "A quote."]];
                        code_example ])
                   60) eq_refl eq_refl _).
  vm_compute. lia.
Defined.
